(** * s3_analyzer: a shallow embedding of [s3_analyzer.py] and its properties

    The script lists the buckets of an account, collects one row of
    metadata per bucket from CloudWatch, Cost Explorer and S3, samples the
    object listing, and renders the rows as a workbook and a PDF.

    Modelling conventions
    - Python numbers that are floats are carried as their exact rational
      value ([Q]).  Dividing a float that is at least 1024 by 1024 only
      changes its exponent, so the loop of [format_bytes] is exact; the
      ["{:.2f}"] conversion is correctly rounded (ties to even) from that
      exact value.  A Python integer below [2^53] behaves as the float of
      the same value; a larger one is rounded by its first division, and
      only its unit, not its digits, is that of the model.
    - Strings are byte strings (UTF-8).  [str.lower] follows the case
      tables of Unicode, which are not modelled: the program is embedded
      for an arbitrary lower-casing function ([StrLower]).
    - [datetime] values are integers counting microseconds.
    - [print], file output and exceptions are explicit: a computation
      yields the list of events it performed and either a value or the
      exception it raised. *)

From Stdlib Require Import ZArith QArith Qabs Qpower String Ascii List Lia Bool.
From stdpp Require Import base strings gmap sets list pretty sorting.

Local Open Scope string_scope.
Local Open Scope Z_scope.

(** ** Python built-ins used by the script *)

Module Py.

(** [c in s] for a one-character [c]. *)
Fixpoint contains (c : ascii) (s : string) : bool :=
  match s with
  | EmptyString => false
  | String a r => if Ascii.eqb a c then true else contains c r
  end.

(** [s.split(sep)] for a one-character separator: never empty. *)
Fixpoint split (sep : ascii) (s : string) : list string :=
  match s with
  | EmptyString => [EmptyString]
  | String a r =>
      if Ascii.eqb a sep then EmptyString :: split sep r
      else match split sep r with
           | h :: t => String a h :: t
           | [] => [String a EmptyString]
           end
  end.

(** [l[0]] and [l[-1]]; both raise IndexError on the empty list, which
    [split] never returns (lemma [split_nonempty]). *)
Definition first (l : list string) : string := default EmptyString (head l).
Definition final (l : list string) : string := default EmptyString (last l).

Definition lower_ascii (a : ascii) : ascii :=
  let n := nat_of_ascii a in
  if ((65 <=? n) && (n <=? 90))%nat then ascii_of_nat (n + 32) else a.

(** [s.lower()] for a string of ASCII characters. *)
Fixpoint lower (s : string) : string :=
  match s with
  | EmptyString => EmptyString
  | String a r => String (lower_ascii a) (lower r)
  end.

(** [s.rfind(c)]: index of the last occurrence of [c], or -1. *)
Fixpoint rfind_from (c : ascii) (s : string) (i found : Z) : Z :=
  match s with
  | EmptyString => found
  | String a r => rfind_from c r (i + 1) (if Ascii.eqb a c then i else found)
  end.

Definition rfind (c : ascii) (s : string) : Z := rfind_from c s 0 (-1).

Fixpoint drop_chars (n : nat) (s : string) : string :=
  match n, s with
  | O, _ => s
  | S _, EmptyString => EmptyString
  | S n', String _ r => drop_chars n' r
  end.

(** [s[i:]]; a negative index counts from the end. *)
Definition slice_from (i : Z) (s : string) : string :=
  let len := Z.of_nat (String.length s) in
  let start := if i <? 0 then Z.max 0 (len + i) else i in
  drop_chars (Z.to_nat start) s.

(** [os.path.basename] (posixpath):
    [i = p.rfind('/') + 1; return p[i:]]. *)
Definition basename (p : string) : string :=
  slice_from (rfind "/" p + 1) p.

(** Rounding of an exact value to an integer, ties to even. *)
Definition round_half_even (q : Q) : Z :=
  let n := Qnum q in
  let d := Z.pos (Qden q) in
  let f := n / d in
  let r2 := 2 * (n mod d) in
  if r2 <? d then f
  else if d <? r2 then f + 1
  else if Z.even f then f else f + 1.

(** The number of hundredths shown by ["{:.2f}"] for a value [q >= 0]. *)
Definition hundredths (q : Q) : Z := round_half_even (Qabs q * 100)%Q.

Definition two_digits (z : Z) : string :=
  if z <? 10 then "0" +:+ pretty z else pretty z.

(** [f"{q:.2f}"]. *)
Definition fixed2 (q : Q) : string :=
  let h := hundredths q in
  (if Qle_bool 0 q then "" else "-")
    +:+ pretty (h / 100) +:+ "." +:+ two_digits (h mod 100).

End Py.

(** [str.lower] on arbitrary strings: any function, of which only that it
    keeps the empty string is used.  [Py.lower] is one, and is [str.lower]
    on ASCII strings. *)
Class StrLower : Type := {
  str_lower : string → string;
  str_lower_empty : str_lower "" = "";
}.

(** ** Helper functions *)

Definition power : Q := 1024%Q.

Definition power_labels : gmap nat string :=
  {[ 0%nat := "B"; 1%nat := "KB"; 2%nat := "MB"; 3%nat := "GB"; 4%nat := "TB" ]}.

(** The [while] loop of [format_bytes].  Every iteration increments [n]
    and the test bounds [n] by [len(power_labels) - 1], so [k] iterations
    are enough as soon as [k + n] reaches that bound (lemma
    [format_loop_exits]); the test itself is the one of the source. *)
Fixpoint format_loop (k : nat) (byte_count : Q) (n : nat) : Q * nat :=
  if Qle_bool power byte_count && (n <? size power_labels - 1)%nat then
    match k with
    | S k' => format_loop k' (byte_count / power)%Q (S n)
    | O => (byte_count, n)
    end
  else (byte_count, n).

(** [format_bytes]; [power_labels[n]] would raise KeyError outside 0..4,
    which the loop excludes (lemma [format_loop_label]). *)
Definition format_bytes (byte_count : option Q) : string :=
  match byte_count with
  | None => "0.0 B"
  | Some b =>
      let '(b', n) := format_loop (size power_labels) b 0 in
      Py.fixed2 b' +:+ " " +:+ (power_labels !!! n)
  end.

(** ** Exceptions, events and the computation type *)

Inductive exn : Type :=
  | ClientError (code : string) (text : string)
      (* botocore's ClientError: [e.response['Error']['Code']] and [str(e)] *)
  | Exception (text : string).
      (* any other exception, with [str(e)] *)

Definition str (e : exn) : string :=
  match e with
  | ClientError _ text => text
  | Exception text => text
  end.

Inductive outcome (A : Type) : Type :=
  | Return (a : A)
  | Raise (e : exn).
Arguments Return {A} a.
Arguments Raise {A} e.

(** One row of [buckets_data]; the field names are the dictionary keys. *)
Record BucketRow : Type := {
  Account_Profile : string;
  Bucket_Name : string;
  Total_Storage : string;
  Est_Cost : string;
  Creation_Date : string;
  Region : string;
  Versioning : string;
  Deletion_Policy : string;
  Is_Working_Bucket : string
}.

(** The workbook written by [generate_excel_report]: the 'Summary' sheet
    and one sheet per region. *)
Record Workbook : Type := {
  xlsx_path : string;
  xlsx_summary : list (string * nat);
  xlsx_sheets : list (string * list BucketRow)
}.

(** The flowables of the PDF story (table styles are left out). *)
Inductive Flowable : Type :=
  | Paragraph (text style : string)
  | Spacer
  | SummaryTable (columns : list string) (rows : list (string * nat))
  | DetailTable (columns : list string) (rows : list (list string)).

Record Document : Type := {
  pdf_path : string;
  story : list Flowable
}.

Inductive event : Type :=
  | Print (line : string)
  | SaveWorkbook (wb : Workbook)
  | BuildDocument (doc : Document).

(** A computation: the events performed, then a value or an exception. *)
Definition M (A : Type) : Type := (list event * outcome A)%type.

#[global] Instance M_ret : MRet M := λ A a, ([], Return a).

#[global] Instance M_bind : MBind M := λ A B f m,
  match m with
  | (evs, Return a) => let '(evs', r) := f a in ((evs ++ evs')%list, r)
  | (evs, Raise e) => (evs, Raise e)
  end.

Definition print (line : string) : M unit := ([Print line], Return ()).

Definition raise {A : Type} (e : exn) : M A := ([], Raise e).

(** A call to a service: no event, the response or the exception. *)
Definition call {A : Type} (r : outcome A) : M A := ([], r).

(** [try: body except ...: handler]; a handler re-raises what its
    [except] clause does not match. *)
Definition try_except {A : Type} (body : M A) (handler : exn → M A) : M A :=
  match body with
  | (evs, Return a) => (evs, Return a)
  | (evs, Raise e) => let '(evs', r) := handler e in ((evs ++ evs')%list, r)
  end.

Definition nl : string := String (ascii_of_nat 10) EmptyString.

(** ** The services *)

Record S3Object : Type := {
  Key : string;
  LastModified : Z
}.

(** A page of [list_objects_v2]: its 'Contents', when the key is there. *)
Definition Page : Type := option (list S3Object).

(** [get_metric_data]: the 'Values' of each entry of 'MetricDataResults'. *)
Record CloudWatch : Type := {
  get_metric_data : string → outcome (list (list Q))
}.

(** [get_cost_and_usage]: the 'Amount' text of the blended cost of each
    entry of 'ResultsByTime'. *)
Record CostExplorer : Type := {
  get_cost_and_usage : string → outcome (list string)
}.

Record S3 : Type := {
  get_bucket_location : string → outcome (option string);
  get_bucket_versioning : string → outcome (option string);
  get_bucket_lifecycle_configuration : string → outcome unit;
  paginate : string → list (outcome Page)
}.

Record Bucket : Type := {
  Name : string;
  CreationDate : string   (* already as [strftime("%Y-%m-%d")] prints it *)
}.

(** What the run reads from its surroundings. *)
Record World : Type := {
  AWS_PROFILE : option string;
  (* lines 64-68: the three clients and [list_buckets()['Buckets']] *)
  session : outcome (S3 * CloudWatch * CostExplorer * list Bucket);
  (* [f"{float(amount):.2f}"] on the amount text of the billing service *)
  float_fixed2 : string → outcome string;
  (* [datetime.now(timezone.utc)] while the given bucket is analysed *)
  utc_now : string → Z;
  (* [datetime.now().strftime(...)] in the two renderers *)
  excel_stamp : string;
  pdf_stamp : string;
  pdf_title_stamp : string
}.

(** [l[0]] on a list of responses. *)
Definition index0 {A : Type} (l : list A) : M A :=
  match l with
  | x :: _ => mret x
  | [] => raise (Exception "list index out of range")
  end.

(** ** Data fetching functions *)

Definition get_bucket_storage_info
    (cloudwatch_client : CloudWatch) (bucket_name : string) : M string :=
  try_except
    (response ← call (get_metric_data cloudwatch_client bucket_name);
     values ← index0 response;
     let total_size_bytes :=
       match values with
       | [] => 0%Q
       | v :: _ => v
       end in
     mret (format_bytes (Some total_size_bytes)))
    (λ e,
       match e with
       | ClientError code _ =>
           print ("  - Warning: Could not get CloudWatch metrics for '"
                  +:+ bucket_name +:+ "'. Reason: " +:+ code);;
           mret "N/A"
       | _ => raise e
       end).

Definition get_bucket_cost
    (w : World) (costexplorer_client : CostExplorer) (bucket_name : string)
    : M string :=
  try_except
    (response ← call (get_cost_and_usage costexplorer_client bucket_name);
     amount ← index0 response;
     shown ← call (float_fixed2 w amount);
     mret ("$" +:+ shown))
    (λ e,
       match e with
       | ClientError error_code _ =>
           (if String.eqb error_code "ValidationException"
            then print "  - Info: Cost Explorer ValidationException. Enable 'Resource and tag-level data' in AWS Billing preferences."
            else print ("  - Warning: Could not get Cost Explorer data. Reason: "
                        +:+ error_code));;
           mret "N/A"
       | _ => raise e
       end).

(** ** Object sampling *)

(** The local variables of [analyze_objects]. *)
Record Scan : Type := {
  first_record_date : option Z;
  last_record_date : option Z;
  folder_structure : gset string;
  doc_types : gmap string nat;
  obj_count : Z
}.

Definition scan_init : Scan :=
  {| first_record_date := None; last_record_date := None;
     folder_structure := ∅; doc_types := ∅; obj_count := 0 |}.

(** Line 121. *)
Definition add_folder (key : string) (folders : gset string) : gset string :=
  if Py.contains "/" key
  then {[ Py.first (Py.split "/" key) ]} ∪ folders
  else folders.

(** Lines 122-123. *)
Definition add_doc_type {L : StrLower} (key : string) (docs : gmap string nat)
    : gmap string nat :=
  if Py.contains "." (Py.basename key)
  then
    let ext := str_lower (Py.final (Py.split "." key)) in
    <[ ext := (default 0%nat (docs !! ext) + 1)%nat ]> docs
  else docs.

(** Lines 117-123: one object of the listing. *)
Definition scan_object {L : StrLower} (st : Scan) (obj : S3Object) : Scan :=
  let mod_time := LastModified obj in
  {| obj_count := obj_count st + 1;
     first_record_date :=
       match first_record_date st with
       | None => Some mod_time
       | Some t => if mod_time <? t then Some mod_time else Some t
       end;
     last_record_date :=
       match last_record_date st with
       | None => Some mod_time
       | Some t => if t <? mod_time then Some mod_time else Some t
       end;
     folder_structure := add_folder (Key obj) (folder_structure st);
     doc_types := add_doc_type (Key obj) (doc_types st) |}.

(** The inner [for]: stops after the object that reaches [sample_size]. *)
Fixpoint scan_contents {L : StrLower} (sample_size : Z)
    (contents : list S3Object) (st : Scan) : Scan :=
  match contents with
  | [] => st
  | obj :: rest =>
      let st' := scan_object st obj in
      if sample_size <=? obj_count st' then st'
      else scan_contents sample_size rest st'
  end.

(** The outer [for]: a page is fetched when the loop reaches it, and the
    fetch may raise. *)
Fixpoint scan_pages {L : StrLower} (sample_size : Z)
    (pages : list (outcome Page)) (st : Scan) : M Scan :=
  match pages with
  | [] => mret st
  | Raise e :: _ => raise e
  | Return None :: rest => scan_pages sample_size rest st
  | Return (Some contents) :: rest =>
      let st' := scan_contents sample_size contents st in
      if sample_size <=? obj_count st' then mret st'
      else scan_pages sample_size rest st'
  end.

(** The tuple returned by [analyze_objects]; [list(folder_structure)] has
    no specified order and is kept as the set. *)
Definition Summary : Type :=
  (option Z * option Z * gset string * gmap string nat)%type.

Definition summary_of (st : Scan) : Summary :=
  (first_record_date st, last_record_date st, folder_structure st,
   doc_types st).

Definition analyze_objects_sized {L : StrLower}
    (s3_client : S3) (bucket_name : string) (sample_size : Z) : M Summary :=
  let pages := paginate s3_client bucket_name in
  try_except
    (st ← scan_pages sample_size pages scan_init;
     mret (summary_of st))
    (λ e,
       match e with
       | ClientError code _ =>
           print ("  - Warning: Could not list objects in '" +:+ bucket_name
                  +:+ "'. Skipping object analysis. Error: " +:+ code);;
           mret (None, None, ∅, ∅)
       | _ => raise e
       end).

(** [analyze_objects] with its default [sample_size=1000]. *)
Definition analyze_objects {L : StrLower} (s3_client : S3)
    (bucket_name : string) : M Summary :=
  analyze_objects_sized s3_client bucket_name 1000.

(** ** The table and the two renderers *)

(** Order of [str] values (code points; here bytes). *)
Definition str_le (a b : string) : Prop := String.leb a b = true.

#[global] Instance str_le_dec : RelDecision str_le :=
  λ a b, decide (String.leb a b = true).

Definition key_le (x y : string * nat) : Prop := str_le x.1 y.1.

#[global] Instance key_le_dec : RelDecision key_le :=
  λ x y, decide (str_le x.1 y.1).

(** [df.groupby('Region')['Bucket Name'].count()]: one pass over the rows
    that tallies them under their region. *)
Definition tally_row (m : gmap string nat) (row : BucketRow)
    : gmap string nat :=
  <[ Region row := (default 0%nat (m !! Region row) + 1)%nat ]> m.

Definition groupby_region_count (df : list BucketRow) : gmap string nat :=
  foldl tally_row ∅ df.

(** [....reset_index().rename(...)]: the groups as rows, in key order. *)
Definition summary_rows (df : list BucketRow) : list (string * nat) :=
  merge_sort key_le (map_to_list (groupby_region_count df)).

(** [col.unique()]: the distinct values in order of first appearance. *)
Fixpoint unique_from (seen : gset string) (l : list string) : list string :=
  match l with
  | [] => []
  | x :: rest =>
      if decide (x ∈ seen) then unique_from seen rest
      else x :: unique_from ({[ x ]} ∪ seen) rest
  end.

Definition unique (l : list string) : list string := unique_from ∅ l.

(** [sorted(df['Region'].unique())]. *)
Definition sorted_regions (df : list BucketRow) : list string :=
  merge_sort str_le (unique (map Region df)).

(** [df[df['Region'] == region]]. *)
Definition region_rows (df : list BucketRow) (region : string)
    : list BucketRow :=
  filter (λ row, Region row = region) df.

(** The count of a region in a summary table, when it has a row. *)
Fixpoint summary_count (region : string) (rows : list (string * nat))
    : option nat :=
  match rows with
  | [] => None
  | (r, n) :: rest =>
      if decide (r = region) then Some n else summary_count region rest
  end.

Fixpoint print_each (lines : list string) : M unit :=
  match lines with
  | [] => mret ()
  | line :: rest => print line;; print_each rest
  end.

Definition generate_excel_report (w : World) (df : list BucketRow)
    (aws_profile : string) : M unit :=
  let report_path :=
    "reports/" +:+ "s3_bucket_report_" +:+ aws_profile +:+ "_"
      +:+ excel_stamp w +:+ ".xlsx" in
  print (nl +:+ "Creating Excel summary sheet...");;
  let summary_df := summary_rows df in
  let regions := sorted_regions df in
  print_each
    (map (λ region, "Creating Excel sheet for region: " +:+ region +:+ "...")
         regions);;
  (([SaveWorkbook
       {| xlsx_path := report_path;
          xlsx_summary := summary_df;
          xlsx_sheets := map (λ region, (region, region_rows df region))
                             regions |}],
    Return ()) : M unit);;
  print ("✅ Excel report generated successfully: " +:+ report_path).

(** [region_df.drop(columns=['Account Profile', 'Region'])]. *)
Definition display_columns : list string :=
  ["Bucket Name"; "Total Storage"; "Est. Cost (Last 30d)"; "Creation Date";
   "Versioning"; "Deletion Policy"; "Is Working Bucket"].

Definition display_row (row : BucketRow) : list string :=
  [Bucket_Name row; Total_Storage row; Est_Cost row; Creation_Date row;
   Versioning row; Deletion_Policy row; Is_Working_Bucket row].

Definition region_section (df : list BucketRow) (region : string)
    : list Flowable :=
  [Paragraph ("Detailed Report for Region: " +:+ region) "h2";
   DetailTable display_columns (map display_row (region_rows df region));
   Spacer].

Definition generate_pdf_report (w : World) (df : list BucketRow)
    (aws_profile : string) : M unit :=
  let report_path :=
    "reports/" +:+ "s3_bucket_report_" +:+ aws_profile +:+ "_"
      +:+ pdf_stamp w +:+ ".pdf" in
  print (nl +:+ "Creating PDF report...");;
  let title :=
    [Paragraph "AWS S3 Bucket Analysis Report" "h1";
     Paragraph ("Account Profile: " +:+ aws_profile) "h2";
     Paragraph ("Report Generated: " +:+ pdf_title_stamp w) "Normal";
     Spacer] in
  let summary_df := summary_rows df in
  let summary :=
    [Paragraph "Account Summary by Region" "h2";
     SummaryTable ["Region"; "Bucket Count"] summary_df;
     Spacer] in
  let regions := sorted_regions df in
  print_each
    (map (λ region, "Creating PDF section for region: " +:+ region +:+ "...")
         regions);;
  (([BuildDocument
       {| pdf_path := report_path;
          story := (title ++ summary
                      ++ concat (map (region_section df) regions))%list |}],
    Return ()) : M unit);;
  print ("✅ PDF report generated successfully: " +:+ report_path).

(** ** Main logic *)

Definition us_per_day : Z := 86400 * 1000000.

(** [timedelta.days] of a difference given in microseconds. *)
Definition days (delta : Z) : Z := delta / us_per_day.

(** Line 90. *)
Definition is_working_bucket (now : Z) (last_record_date : option Z)
    : string :=
  match last_record_date with
  | Some t => if days (now - t) <? 30 then "Yes" else "No"
  | None => "No"
  end.

(** Lines 83-87. *)
Definition get_deletion_policy (s3_client : S3) (bucket_name : string)
    : M string :=
  try_except
    (call (get_bucket_lifecycle_configuration s3_client bucket_name);;
     mret "Enabled")
    (λ e,
       match e with
       | ClientError code _ =>
           if String.eqb code "NoSuchLifecycleConfiguration"
           then mret "Not Enabled"
           else raise e
       | _ => raise e
       end).

(** Lines 77-97: the body of the per-bucket [try], up to the row. *)
Definition bucket_row {L : StrLower} (w : World) (s3_client : S3)
    (cloudwatch_client : CloudWatch) (costexplorer_client : CostExplorer)
    (aws_profile : string) (bucket : Bucket) : M BucketRow :=
  let bucket_name := Name bucket in
  print "  - Getting storage and cost info...";;
  total_storage ← get_bucket_storage_info cloudwatch_client bucket_name;
  estimated_cost ← get_bucket_cost w costexplorer_client bucket_name;
  constraint ← call (get_bucket_location s3_client bucket_name);
  let location :=
    match constraint with
    | Some l => if String.eqb l "" then "us-east-1" else l
    | None => "us-east-1"
    end in
  status ← call (get_bucket_versioning s3_client bucket_name);
  let versioning_status := default "Not Enabled" status in
  deletion_policy ← get_deletion_policy s3_client bucket_name;
  summary ← analyze_objects s3_client bucket_name;
  let '(first_seen, last_seen, folders, docs) := summary in
  let is_working := is_working_bucket (utc_now w bucket_name) last_seen in
  mret {| Account_Profile := aws_profile; Bucket_Name := bucket_name;
          Total_Storage := total_storage; Est_Cost := estimated_cost;
          Creation_Date := CreationDate bucket; Region := location;
          Versioning := versioning_status;
          Deletion_Policy := deletion_policy;
          Is_Working_Bucket := is_working |}.

(** Lines 73-99: the loop over the buckets; [except Exception] catches
    every exception of the body, prints it and goes on. *)
Fixpoint collect {L : StrLower} (w : World) (s3_client : S3)
    (cloudwatch_client : CloudWatch) (costexplorer_client : CostExplorer)
    (aws_profile : string) (buckets : list Bucket)
    (buckets_data : list BucketRow) : M (list BucketRow) :=
  match buckets with
  | [] => mret buckets_data
  | bucket :: rest =>
      print (nl +:+ "Analyzing Bucket: " +:+ Name bucket);;
      buckets_data' ←
        try_except
          (row ← bucket_row w s3_client cloudwatch_client
                   costexplorer_client aws_profile bucket;
           mret (buckets_data ++ [row])%list)
          (λ e,
             print ("An unexpected error occurred while analyzing bucket '"
                    +:+ Name bucket +:+ "': " +:+ str e);;
             mret buckets_data);
      collect w s3_client cloudwatch_client costexplorer_client aws_profile
        rest buckets_data'
  end.

Definition get_s3_insights {L : StrLower} (w : World) : M unit :=
  let aws_profile := default "default" (AWS_PROFILE w) in
  print ("Using AWS Profile: '" +:+ aws_profile +:+ "'");;
  match session w with
  | Raise e => print ("Error setting up AWS clients: " +:+ str e)
  | Return (s3_client, cloudwatch_client, costexplorer_client, buckets) =>
      buckets_data ← collect w s3_client cloudwatch_client
                       costexplorer_client aws_profile buckets [];
      match buckets_data with
      | [] => print (nl +:+ "No buckets were found. Reports not generated.")
      | _ :: _ =>
          let df := buckets_data in
          generate_excel_report w df aws_profile;;
          generate_pdf_report w df aws_profile
      end
  end.


(** ** Notions used to state the properties *)

(** The part of [s] after its final [c] (all of [s] without a [c]). *)
Definition suffix_after_final (c : ascii) (s : string) : string :=
  Py.slice_from (Py.rfind c s + 1) s.

(** The same suffix, by recursion on the string. *)
Fixpoint after_last (c : ascii) (s : string) : string :=
  match s with
  | EmptyString => EmptyString
  | String a r =>
      if Py.contains c r then after_last c r
      else if Ascii.eqb a c then r else String a r
  end.

(** The characters of [s] before its first [c]: the first segment. *)
Fixpoint first_segment (c : ascii) (s : string) : string :=
  match s with
  | EmptyString => EmptyString
  | String a r => if Ascii.eqb a c then EmptyString else String a (first_segment c r)
  end.

(** The number printed by [format_bytes], as a count of hundredths, and
    the index of the unit printed after it. *)
Definition printed_hundredths (b : Q) : Z :=
  Py.hundredths (format_loop (size power_labels) b 0).1.

Definition printed_unit (b : Q) : nat :=
  (format_loop (size power_labels) b 0).2.

(** "The numeric part lies in [0, 1024) unless the unit is TB". *)
Definition numeric_part_below_1024 (b : Q) : Prop :=
  power_labels !! printed_unit b ≠ Some "TB" →
  0 <= printed_hundredths b < 1024 * 100.

(** The objects of a listing, in listing order. *)
Definition listed (pages : list Page) : list S3Object :=
  concat (map (default []) pages).

(** The lifecycle query answered "no lifecycle configuration". *)
Definition no_lifecycle (e : exn) : bool :=
  match e with
  | ClientError code _ => String.eqb code "NoSuchLifecycleConfiguration"
  | Exception _ => false
  end.

(** An event that runs a renderer's output step. *)
Definition writes_report (ev : event) : bool :=
  match ev with
  | Print _ => false
  | SaveWorkbook _ | BuildDocument _ => true
  end.

(** A computation that only prints. *)
Definition quiet {A : Type} (m : M A) : Prop :=
  Forall (λ ev, writes_report ev = false) m.1.

(** The workbook and the document the renderers hand to their output
    step. *)
Definition excel_workbook (w : World) (df : list BucketRow)
    (aws_profile : string) : Workbook :=
  {| xlsx_path := "reports/" +:+ "s3_bucket_report_" +:+ aws_profile +:+ "_"
                    +:+ excel_stamp w +:+ ".xlsx";
     xlsx_summary := summary_rows df;
     xlsx_sheets := map (λ region, (region, region_rows df region))
                        (sorted_regions df) |}.

Definition pdf_document (w : World) (df : list BucketRow)
    (aws_profile : string) : Document :=
  {| pdf_path := "reports/" +:+ "s3_bucket_report_" +:+ aws_profile +:+ "_"
                   +:+ pdf_stamp w +:+ ".pdf";
     story :=
       ([Paragraph "AWS S3 Bucket Analysis Report" "h1";
         Paragraph ("Account Profile: " +:+ aws_profile) "h2";
         Paragraph ("Report Generated: " +:+ pdf_title_stamp w) "Normal";
         Spacer]
        ++ [Paragraph "Account Summary by Region" "h2";
            SummaryTable ["Region"; "Bucket Count"] (summary_rows df);
            Spacer]
        ++ concat (map (region_section df) (sorted_regions df)))%list |}.

(** ** Scenarios *)

(** The keys of the scenarios are ASCII strings, lower-cased by
    [Py.lower]. *)
#[global] Instance ascii_lower : StrLower :=
  {| str_lower := Py.lower; str_lower_empty := eq_refl |}.

(** Objects numbered [i], all modified at time [i]. *)
Definition numbered (n : nat) : list S3Object :=
  (λ i : nat, {| Key := "k" +:+ pretty i; LastModified := Z.of_nat i |})
    <$> seq 0 n.

Definition numbered_bucket (n : nat) : S3 :=
  {| get_bucket_location := λ _, Return None;
     get_bucket_versioning := λ _, Return None;
     get_bucket_lifecycle_configuration := λ _, Return ();
     paginate := λ _, [Return (Some (numbered n))] |}.

Definition object_at (key : string) (modified : Z) : S3Object :=
  {| Key := key; LastModified := modified |}.

(** The listing of the second scenario of the specification. *)
Definition sample_bucket : S3 :=
  {| get_bucket_location := λ _, Return None;
     get_bucket_versioning := λ _, Return None;
     get_bucket_lifecycle_configuration := λ _, Return ();
     paginate := λ _,
       [Return (Some [object_at "a/b/file.TXT" 7; object_at "c.tar.gz" 7;
                      object_at "noext" 7])] |}.

(** The first scenario of the specification: bucket [logs-bucket], no
    data point, a validation error from the billing service, no lifecycle
    configuration, two objects modified five days before the analysis. *)
Definition logs_cloudwatch : CloudWatch :=
  {| get_metric_data := λ _, Return [[]] |}.

Definition logs_costexplorer : CostExplorer :=
  {| get_cost_and_usage := λ _,
       Raise (ClientError "ValidationException" "An error occurred") |}.

Definition logs_s3 : S3 :=
  {| get_bucket_location := λ _, Return (Some "eu-west-1");
     get_bucket_versioning := λ _, Return (Some "Enabled");
     get_bucket_lifecycle_configuration := λ _,
       Raise (ClientError "NoSuchLifecycleConfiguration" "An error occurred");
     paginate := λ _,
       [Return (Some [object_at "2024/app.log" (25 * us_per_day);
                      object_at "2024/db.log" (25 * us_per_day)])] |}.

Definition logs_bucket : Bucket :=
  {| Name := "logs-bucket"; CreationDate := "2023-05-17" |}.

Definition logs_world : World :=
  {| AWS_PROFILE := None;
     session := Return (logs_s3, logs_cloudwatch, logs_costexplorer,
                        [logs_bucket]);
     float_fixed2 := λ amount, Return amount;
     utc_now := λ _, 30 * us_per_day;
     excel_stamp := "20240101_000000";
     pdf_stamp := "20240101_000001";
     pdf_title_stamp := "2024-01-01 00:00:01" |}.

(** A CloudWatch client that is refused, and an S3 client whose lifecycle
    query is refused. *)
Definition denied_cloudwatch : CloudWatch :=
  {| get_metric_data := λ _,
       Raise (ClientError "AccessDenied" "An error occurred") |}.

Definition denied_s3 : S3 :=
  {| get_bucket_location := λ _, Return None;
     get_bucket_versioning := λ _, Return None;
     get_bucket_lifecycle_configuration := λ _,
       Raise (ClientError "AccessDenied" "An error occurred");
     paginate := λ _, [] |}.

Definition denied_world : World :=
  {| AWS_PROFILE := Some "audit";
     session := Return (denied_s3, denied_cloudwatch, logs_costexplorer,
                        [logs_bucket]);
     float_fixed2 := λ amount, Return amount;
     utc_now := λ _, 30 * us_per_day;
     excel_stamp := "20240101_000000";
     pdf_stamp := "20240101_000001";
     pdf_title_stamp := "2024-01-01 00:00:01" |}.

Definition logs_row : BucketRow :=
  {| Account_Profile := "default"; Bucket_Name := "logs-bucket";
     Total_Storage := "0.00 B"; Est_Cost := "N/A";
     Creation_Date := "2023-05-17"; Region := "eu-west-1";
     Versioning := "Enabled"; Deletion_Policy := "Not Enabled";
     Is_Working_Bucket := "Yes" |}.

Definition row_in (name region : string) : BucketRow :=
  {| Account_Profile := "default"; Bucket_Name := name;
     Total_Storage := "N/A"; Est_Cost := "N/A"; Creation_Date := "2023-05-17";
     Region := region; Versioning := "Not Enabled";
     Deletion_Policy := "Not Enabled"; Is_Working_Bucket := "No" |}.

(** Three buckets in two regions. *)
Definition sample_table : list BucketRow :=
  [row_in "photos" "us-east-1"; row_in "backups" "eu-west-1";
   row_in "logs" "us-east-1"].

(** ** Further notions *)

(** The extension under which a key is counted, if it is counted. *)
Definition extension {L : StrLower} (key : string) : option string :=
  if Py.contains "." (Py.basename key)
  then Some (str_lower (suffix_after_final "." (Py.basename key)))
  else None.

(** The sum of the counts of a histogram. *)
Definition histogram_total (m : gmap string nat) : nat :=
  map_fold (λ _ count total, count + total)%nat 0%nat m.

(** The row a bucket contributes to the table, if its body returns. *)
Definition collected_row {L : StrLower} (w : World) (s3_client : S3)
    (cloudwatch_client : CloudWatch) (costexplorer_client : CostExplorer)
    (aws_profile : string) (bucket : Bucket) : option BucketRow :=
  match (bucket_row w s3_client cloudwatch_client costexplorer_client
           aws_profile bucket).2 with
  | Return row => Some row
  | Raise _ => None
  end.

(** The table of a run: empty when the set-up fails. *)
Definition collected {L : StrLower} (w : World) : list BucketRow :=
  match session w with
  | Return (s3_client, cloudwatch_client, costexplorer_client, buckets) =>
      omap (collected_row w s3_client cloudwatch_client costexplorer_client
              (default "default" (AWS_PROFILE w))) buckets
  | Raise _ => []
  end.

(** [location or 'us-east-1']. *)
Definition normalized_region (constraint : option string) : string :=
  match constraint with
  | Some l => if String.eqb l "" then "us-east-1" else l
  | None => "us-east-1"
  end.

(** Listings that fail: with a ClientError on the third page, with a
    ClientError after 1000 objects, with another exception. *)
Definition listing_of (pages : list (outcome Page)) : S3 :=
  {| get_bucket_location := λ _, Return None;
     get_bucket_versioning := λ _, Return None;
     get_bucket_lifecycle_configuration := λ _, Return ();
     paginate := λ _, pages |}.

Definition failing_listing : S3 :=
  listing_of [Return (Some [object_at "a/x.txt" 1]); Return None;
              Raise (ClientError "SlowDown" "An error occurred")].

Definition capped_listing : S3 :=
  listing_of [Return (Some (numbered 1000));
              Raise (ClientError "SlowDown" "An error occurred")].

Definition broken_listing : S3 :=
  listing_of [Return (Some [object_at "a/x.txt" 1]);
              Raise (Exception "Connection reset")].

(** A metrics service whose response has no result entry at all. *)
Definition silent_cloudwatch : CloudWatch :=
  {| get_metric_data := λ _, Return [] |}.

(** * Properties *)

(** ** Strings *)

Section Strings.
Variable c : ascii.

Lemma split_nonempty (s : string) : Py.split c s ≠ [].
Proof.
  destruct s as [|a r]; simpl; [done|].
  destruct (Ascii.eqb a c); [done|].
  by destruct (Py.split c r).
Qed.

Lemma split_no_sep (s : string) :
  Py.contains c s = false → Py.split c s = [s].
Proof.
  induction s as [|a r IH]; simpl; [done|].
  destruct (Ascii.eqb a c); [done|].
  intros H. by rewrite (IH H).
Qed.

Lemma split_sep_length (s : string) :
  Py.contains c s = true → (2 <= length (Py.split c s))%nat.
Proof.
  induction s as [|a r IH]; simpl; [done|].
  destruct (Ascii.eqb a c) eqn:E.
  - intros _. pose proof (split_nonempty r).
    destruct (Py.split c r); simpl; [done|lia].
  - intros H. specialize (IH H).
    destruct (Py.split c r) as [|h t]; simpl in *; lia.
Qed.

Lemma after_last_no_sep (s : string) :
  Py.contains c s = false → after_last c s = s.
Proof.
  destruct s as [|a r]; simpl; [done|].
  destruct (Ascii.eqb a c); [done|].
  by intros ->.
Qed.

Lemma final_split (s : string) : Py.final (Py.split c s) = after_last c s.
Proof.
  unfold Py.final.
  induction s as [|a r IH]; simpl; [done|].
  destruct (Ascii.eqb a c) eqn:E.
  - pose proof (split_nonempty r) as Hne.
    destruct (Py.split c r) as [|h t] eqn:Hs; [done|].
    rewrite last_cons. simpl in IH.
    destruct (Py.contains c r) eqn:Hc.
    + rewrite <- IH. destruct (last (h :: t)) eqn:Hl; [done|].
      by apply last_None in Hl.
    + rewrite (split_no_sep r Hc) in Hs. by inversion Hs.
  - destruct (Py.contains c r) eqn:Hc.
    + pose proof (split_sep_length r Hc) as Hlen.
      destruct (Py.split c r) as [|h [|h' t]] eqn:Hs; simpl in Hlen; try lia.
      rewrite <- IH. by rewrite (last_cons_cons (String a h)), (last_cons_cons h).
    + by rewrite (split_no_sep r Hc).
Qed.

Lemma first_split (s : string) : Py.first (Py.split c s) = first_segment c s.
Proof.
  unfold Py.first.
  induction s as [|a r IH]; simpl; [done|].
  destruct (Ascii.eqb a c); [done|].
  pose proof (split_nonempty r).
  destruct (Py.split c r); [done|].
  simpl in *. by rewrite IH.
Qed.

Lemma rfind_from_no_sep (s : string) (i found : Z) :
  Py.contains c s = false → Py.rfind_from c s i found = found.
Proof.
  revert i found. induction s as [|a r IH]; intros i found; simpl; [done|].
  destruct (Ascii.eqb a c); [done|].
  intros H. by apply IH.
Qed.

Lemma rfind_from_sep (s : string) (i found : Z) :
  Py.contains c s = true →
  i <= Py.rfind_from c s i found ∧
  Py.drop_chars (Z.to_nat (Py.rfind_from c s i found - i + 1)) s
    = after_last c s.
Proof.
  revert i found. induction s as [|a r IH]; intros i found; simpl; [done|].
  destruct (Py.contains c r) eqn:Hc.
  - intros _.
    destruct (IH (i + 1) (if Ascii.eqb a c then i else found) eq_refl)
      as [Hle Hdrop].
    split; [lia|].
    set (R := Py.rfind_from c r (i + 1) (if Ascii.eqb a c then i else found)) in *.
    replace (Z.to_nat (R - i + 1)) with (S (Z.to_nat (R - (i + 1) + 1))) by lia.
    exact Hdrop.
  - destruct (Ascii.eqb a c) eqn:E; [|done].
    intros _. rewrite rfind_from_no_sep by done.
    split; [lia|].
    by replace (Z.to_nat (i - i + 1)) with 1%nat by lia.
Qed.

Lemma rfind_lower_bound (s : string) : -1 <= Py.rfind c s.
Proof.
  unfold Py.rfind. destruct (Py.contains c s) eqn:Hc.
  - pose proof (rfind_from_sep s 0 (-1) Hc) as [? _]. lia.
  - rewrite rfind_from_no_sep by done. lia.
Qed.

(** Slicing after [rfind] gives the suffix after the final separator. *)
Lemma suffix_after_final_after_last (s : string) :
  suffix_after_final c s = after_last c s.
Proof.
  unfold suffix_after_final, Py.slice_from.
  pose proof (rfind_lower_bound s) as Hlb.
  destruct (Z.ltb_spec (Py.rfind c s + 1) 0) as [?|_]; [lia|].
  unfold Py.rfind in *.
  destruct (Py.contains c s) eqn:Hc.
  - pose proof (rfind_from_sep s 0 (-1) Hc) as [_ Hd].
    by rewrite Z.sub_0_r in Hd.
  - rewrite rfind_from_no_sep by done. simpl.
    by rewrite after_last_no_sep.
Qed.

Lemma contains_after_last (d : ascii) (s : string) :
  Py.contains c (after_last d s) = true → Py.contains c s = true.
Proof.
  induction s as [|a r IH]; simpl; [done|].
  destruct (Py.contains d r).
  - intros H. rewrite (IH H). by destruct (Ascii.eqb a c).
  - destruct (Ascii.eqb a d); simpl.
    + intros ->. by destruct (Ascii.eqb a c).
    + done.
Qed.

(** When the part after the final [d] holds a [c], the final [c] of the
    whole string lies in that part. *)
Lemma after_last_within (d : ascii) (s : string) :
  Py.contains c (after_last d s) = true →
  after_last c s = after_last c (after_last d s).
Proof.
  induction s as [|a r IH]; simpl; [done|].
  destruct (Py.contains d r) eqn:Hd.
  - intros H. rewrite (contains_after_last d r H). by apply IH.
  - destruct (Ascii.eqb a d); simpl; [|done].
    by intros ->.
Qed.
End Strings.

Lemma basename_after_last (key : string) :
  Py.basename key = after_last "/" key.
Proof. apply (suffix_after_final_after_last "/"). Qed.

(** The extension the code reads off the whole key is the one of the
    base name, whenever the base name has a dot. *)
Lemma extension_of_basename (key : string) :
  Py.contains "." (Py.basename key) = true →
  Py.final (Py.split "." key) = suffix_after_final "." (Py.basename key).
Proof.
  intros H. rewrite final_split, suffix_after_final_after_last.
  rewrite basename_after_last in *. by apply after_last_within.
Qed.


(** ** [format_bytes] *)

Lemma size_power_labels : size power_labels = 5%nat.
Proof. reflexivity. Qed.

Lemma format_loop_unfold (k : nat) (b : Q) (n : nat) :
  format_loop k b n =
  if Qle_bool power b && (n <? 4)%nat then
    match k with
    | S k' => format_loop k' (b / power)%Q (S n)
    | O => (b, n)
    end
  else (b, n).
Proof. by destruct k. Qed.

Lemma power_pos : (0 < power)%Q.
Proof. reflexivity. Qed.

(** With as many iterations as there are labels above [n], the loop
    leaves through its own test: the value is below 1024 or the label is
    the last one. *)
Lemma format_loop_exits (k : nat) (b : Q) (n : nat) :
  (0 <= b)%Q → (n <= 4)%nat → (4 <= k + n)%nat →
  ∃ v m, format_loop k b n = (v, m) ∧ (n <= m <= 4)%nat ∧
         (0 <= v)%Q ∧ ((m < 4)%nat → (v < power)%Q) ∧
         (b == v * power ^ Z.of_nat (m - n))%Q.
Proof.
  revert b n. induction k as [|k IH]; intros b n Hb Hn Hk;
    rewrite format_loop_unfold.
  - assert (n = 4%nat) as -> by lia.
    rewrite andb_false_r. exists b, 4%nat.
    repeat split; try lia; try done. simpl. ring.
  - destruct (Qle_bool power b) eqn:Hle; simpl.
    + destruct (Nat.ltb_spec n 4) as [Hlt|Hge].
      * assert (0 <= b / power)%Q as Hb'.
        { apply Qle_shift_div_l; [apply power_pos|]. by rewrite Qmult_0_l. }
        destruct (IH (b / power)%Q (S n) Hb') as (v & m & Heq & Hm & Hv & Hlt' & Hsc);
          [lia|lia|].
        exists v, m. repeat split; try lia; try done.
        replace (Z.of_nat (m - n)) with (Z.of_nat (m - S n) + 1) by lia.
        rewrite Qpower_plus by done.
        assert (b == (b / power) * power)%Q as Hbb by (field; done).
        rewrite Hbb at 1. rewrite Hsc. simpl. ring.
      * exists b, n. repeat split; try lia; try done.
        rewrite Nat.sub_diag. simpl. ring.
    + exists b, n. repeat split; try lia; try done.
      * intros _. apply Qnot_le_lt. intros H.
        apply Qle_bool_iff in H. congruence.
      * rewrite Nat.sub_diag. simpl. ring.
Qed.

(** [power_labels[n]] is defined for every index the loop can return. *)
Lemma format_loop_label (n : nat) :
  (n <= 4)%nat →
  ∃ label, power_labels !! n = Some label ∧ power_labels !!! n = label ∧
           label ∈ ["B"; "KB"; "MB"; "GB"; "TB"] ∧
           (label = "TB" ↔ n = 4%nat).
Proof.
  intros Hn.
  destruct n as [|[|[|[|[|n]]]]]; try lia;
    eexists; (split; [reflexivity|]); (split; [reflexivity|]);
    (split; [set_solver|]); split; (done || lia).
Qed.

Lemma round_half_even_bounds (q : Q) (c : Z) :
  (0 <= q)%Q → (q < inject_Z c)%Q → 0 <= Py.round_half_even q <= c.
Proof.
  unfold Qle, Qlt, Py.round_half_even. destruct q as [n d]. simpl.
  intros H0 Hc.
  assert (0 <= n / Z.pos d) by (apply Z.div_pos; lia).
  assert (n / Z.pos d < c) by (apply Z.div_lt_upper_bound; lia).
  repeat case_match; lia.
Qed.

Lemma hundredths_bounds (v : Q) :
  (0 <= v)%Q → (v < power)%Q → 0 <= Py.hundredths v <= 102400.
Proof.
  intros H0 Hlt. unfold Py.hundredths.
  apply round_half_even_bounds.
  - rewrite Qabs_pos by done. apply Qmult_le_0_compat; done.
  - rewrite Qabs_pos by done.
    change (inject_Z 102400) with (power * 100)%Q.
    apply Qmult_lt_compat_r; done.
Qed.

Lemma hundredths_nonneg (v : Q) : 0 <= Py.hundredths v.
Proof.
  unfold Py.hundredths, Py.round_half_even.
  assert (0 <= Qabs v * 100)%Q as H.
  { apply Qmult_le_0_compat; [apply Qabs_nonneg|done]. }
  destruct (Qabs v * 100)%Q as [n d]. unfold Qle in H. simpl in *.
  assert (0 <= n / Z.pos d) by (apply Z.div_pos; lia).
  repeat case_match; lia.
Qed.

(** C3, as amended: for every byte count [b >= 0], [format_bytes] prints
    the value [v = b / 1024^n] with two decimals, followed by a unit among
    B, KB, MB, GB, TB; unless the unit is TB, [v] lies in [0, 1024) and
    the number printed lies between 0.00 and 1024.00 inclusive (the
    rounding to two decimals can reach 1024.00).  An absent input is
    printed as "0.0 B". *)
Theorem format_bytes_unit_and_range (b : Q) :
  (0 <= b)%Q →
  ∃ (v : Q) (n : nat) (label : string),
    format_loop (size power_labels) b 0 = (v, n) ∧
    power_labels !! n = Some label ∧
    label ∈ ["B"; "KB"; "MB"; "GB"; "TB"] ∧
    format_bytes (Some b) = Py.fixed2 v +:+ " " +:+ label ∧
    (b == v * power ^ Z.of_nat n)%Q ∧
    (0 <= v)%Q ∧ 0 <= Py.hundredths v ∧
    (label ≠ "TB" → (v < power)%Q ∧ Py.hundredths v <= 1024 * 100) ∧
    format_bytes None = "0.0 B".
Proof.
  intros Hb.
  destruct (format_loop_exits (size power_labels) b 0 Hb)
    as (v & n & Heq & Hn & Hv & Hlt & Hsc);
    [lia | rewrite size_power_labels; lia |].
  destruct (format_loop_label n) as (label & Hl & Hl' & Hin & Htb); [lia|].
  exists v, n, label. rewrite Nat.sub_0_r in Hsc.
  split; [done|]. split; [done|]. split; [done|].
  split; [unfold format_bytes; by rewrite Heq, Hl'|].
  split; [done|]. split; [done|].
  split; [apply hundredths_nonneg|].
  split; [|done].
  intros Hne.
  assert (n < 4)%nat as Hn4.
  { destruct (decide (n = 4%nat)) as [->|]; [|lia]. by destruct Hne; apply Htb. }
  split; [by apply Hlt|]. apply hundredths_bounds; auto.
Qed.

Lemma format_bytes_unit_and_range_witness :
  ∃ (v : Q) (n : nat) (label : string),
    format_loop (size power_labels) 1536%Q 0 = (v, n) ∧
    power_labels !! n = Some label ∧
    label ∈ ["B"; "KB"; "MB"; "GB"; "TB"] ∧
    format_bytes (Some 1536%Q) = Py.fixed2 v +:+ " " +:+ label ∧
    (1536 == v * power ^ Z.of_nat n)%Q ∧
    (0 <= v)%Q ∧ 0 <= Py.hundredths v ∧
    (label ≠ "TB" → (v < power)%Q ∧ Py.hundredths v <= 1024 * 100) ∧
    format_bytes None = "0.0 B".
Proof. apply (format_bytes_unit_and_range 1536%Q). discriminate. Defined.

(** C3 as the specification states it fails: 1048575 bytes are printed
    as "1024.00 KB". *)
Lemma format_bytes_prints_1024 :
  format_bytes (Some 1048575%Q) = "1024.00 KB" ∧
  ¬ (∀ b : Q, (0 <= b)%Q → numeric_part_below_1024 b).
Proof.
  split; [by vm_compute|].
  intros H. specialize (H 1048575%Q).
  assert (0 <= 1048575)%Q as H0 by discriminate.
  specialize (H H0). unfold numeric_part_below_1024 in H.
  assert (printed_unit 1048575%Q = 1%nat) as Hu by (by vm_compute).
  assert (printed_hundredths 1048575%Q = 102400) as Hh by (by vm_compute).
  rewrite Hu, Hh in H.
  assert (power_labels !! 1%nat ≠ Some "TB") as Hl by (by vm_compute).
  specialize (H Hl). lia.
Qed.

Example format_bytes_zero : format_bytes (Some 0%Q) = "0.00 B".
Proof. by vm_compute. Qed.

Example format_bytes_kb : format_bytes (Some 1536%Q) = "1.50 KB".
Proof. by vm_compute. Qed.

Example format_bytes_tie : format_bytes (Some (1 # 8)%Q) = "0.12 B".
Proof. by vm_compute. Qed.

Example format_bytes_top : format_bytes (Some (2 ^ 60)%Q) = "1048576.00 TB".
Proof. by vm_compute. Qed.


(** ** Computations *)

Lemma bind_Return {A B : Type} (evs : list event) (a : A) (f : A → M B) :
  ((evs, Return a) : M A) ≫= f = ((evs ++ (f a).1)%list, (f a).2).
Proof. unfold mbind, M_bind. by destruct (f a). Qed.

Lemma bind_Raise {A B : Type} (evs : list event) (e : exn) (f : A → M B) :
  ((evs, Raise e) : M A) ≫= f = (evs, Raise e).
Proof. done. Qed.

Lemma bind_Return_inv {A B : Type} (m : M A) (f : A → M B)
    (evs : list event) (b : B) :
  m ≫= f = (evs, Return b) →
  ∃ evs1 a evs2,
    m = (evs1, Return a) ∧ f a = (evs2, Return b) ∧ evs = (evs1 ++ evs2)%list.
Proof.
  destruct m as [evs1 [a|e]]; [|done].
  rewrite bind_Return. destruct (f a) as [evs2 r] eqn:Hf. simpl.
  intros [= <- ->]. by exists evs1, a, evs2.
Qed.

(** What a row is made of: every lookup of the per-bucket body returned,
    and the row holds their results. *)
Lemma bucket_row_Return_inv {L : StrLower} (w : World) (s3_client : S3)
    (cloudwatch_client : CloudWatch) (costexplorer_client : CostExplorer)
    (aws_profile : string) (bucket : Bucket)
    (evs : list event) (row : BucketRow) :
  bucket_row w s3_client cloudwatch_client costexplorer_client aws_profile
    bucket = (evs, Return row) →
  ∃ e1 total_storage e2 estimated_cost constraint status e5 deletion_policy
    e6 first_seen last_seen folders docs,
    get_bucket_storage_info cloudwatch_client (Name bucket)
      = (e1, Return total_storage) ∧
    get_bucket_cost w costexplorer_client (Name bucket)
      = (e2, Return estimated_cost) ∧
    get_bucket_location s3_client (Name bucket) = Return constraint ∧
    get_bucket_versioning s3_client (Name bucket) = Return status ∧
    get_deletion_policy s3_client (Name bucket)
      = (e5, Return deletion_policy) ∧
    analyze_objects s3_client (Name bucket)
      = (e6, Return (first_seen, last_seen, folders, docs)) ∧
    Total_Storage row = total_storage ∧
    Est_Cost row = estimated_cost ∧
    Deletion_Policy row = deletion_policy ∧
    Is_Working_Bucket row
      = is_working_bucket (utc_now w (Name bucket)) last_seen.
Proof.
  unfold bucket_row. intros H.
  apply bind_Return_inv in H as (? & [] & r1 & _ & H & _).
  apply bind_Return_inv in H as (e1 & total_storage & r2 & H1 & H & _).
  apply bind_Return_inv in H as (e2 & estimated_cost & r3 & H2 & H & _).
  apply bind_Return_inv in H as (? & constraint & r4 & H3 & H & _).
  apply bind_Return_inv in H as (? & status & r5 & H4 & H & _).
  apply bind_Return_inv in H as (e5 & deletion_policy & r6 & H5 & H & _).
  apply bind_Return_inv in H as (e6 & [[[fs ls] fo] dt] & r7 & H6 & H & _).
  injection H as _ <-.
  unfold call in H3, H4. injection H3 as _ H3. injection H4 as _ H4.
  by exists e1, total_storage, e2, estimated_cost, constraint, status, e5,
    deletion_policy, e6, fs, ls, fo, dt.
Qed.

(** Conversely, when every lookup returns, the row is built. *)
Lemma bucket_row_Return_intro {L : StrLower} (w : World) (s3_client : S3)
    (cloudwatch_client : CloudWatch) (costexplorer_client : CostExplorer)
    (aws_profile : string) (bucket : Bucket)
    e1 total_storage e2 estimated_cost constraint status e5 deletion_policy
    e6 summary :
  get_bucket_storage_info cloudwatch_client (Name bucket)
    = (e1, Return total_storage) →
  get_bucket_cost w costexplorer_client (Name bucket)
    = (e2, Return estimated_cost) →
  get_bucket_location s3_client (Name bucket) = Return constraint →
  get_bucket_versioning s3_client (Name bucket) = Return status →
  get_deletion_policy s3_client (Name bucket) = (e5, Return deletion_policy) →
  analyze_objects s3_client (Name bucket) = (e6, Return summary) →
  ∃ evs row,
    bucket_row w s3_client cloudwatch_client costexplorer_client aws_profile
      bucket = (evs, Return row) ∧
    Total_Storage row = total_storage ∧
    Deletion_Policy row = deletion_policy.
Proof.
  intros H1 H2 H3 H4 H5 H6. unfold bucket_row.
  rewrite H1, H2, H3, H4, H5, H6. unfold print, call.
  destruct summary as [[[fs ls] fo] dt].
  rewrite !bind_Return. simpl. eauto.
Qed.


(** ** The object scan *)

Lemma scan_object_count {L : StrLower} (st : Scan) (obj : S3Object) :
  obj_count (scan_object st obj) = obj_count st + 1.
Proof. done. Qed.

Lemma foldl_scan_count {L : StrLower} (l : list S3Object) (st : Scan) :
  obj_count (foldl scan_object st l) = obj_count st + Z.of_nat (length l).
Proof.
  revert st. induction l as [|obj l IH]; intros st; simpl; [lia|].
  rewrite IH, scan_object_count. lia.
Qed.

(** The inner loop scans the objects of the page that fit under the cap. *)
Lemma scan_contents_take {L : StrLower} (sample_size : Z)
    (contents : list S3Object)
    (st : Scan) :
  obj_count st < sample_size →
  scan_contents sample_size contents st
  = foldl scan_object st
      (take (Z.to_nat (sample_size - obj_count st)) contents).
Proof.
  revert st. induction contents as [|obj rest IH]; intros st Hlt; simpl.
  - by rewrite take_nil.
  - destruct (Z.to_nat (sample_size - obj_count st)) as [|k] eqn:Hk; [lia|].
    simpl. destruct (Z.leb_spec sample_size (obj_count st + 1)) as [Hle|Hgt].
    + assert (k = 0%nat) as -> by lia. by rewrite take_0.
    + rewrite IH by (rewrite scan_object_count; lia).
      rewrite scan_object_count. do 2 f_equal. lia.
Qed.

(** The outer loop: pages that are fetched without error are scanned up
    to the cap; the pages after them are fetched only if the cap has not
    been reached. *)
Lemma scan_pages_app {L : StrLower} (sample_size : Z) (pages : list Page)
    (later : list (outcome Page)) (st : Scan) :
  obj_count st < sample_size →
  scan_pages sample_size ((Return <$> pages) ++ later) st
  = if decide (Z.to_nat (sample_size - obj_count st) <= length (listed pages))%nat
    then mret (foldl scan_object st
                 (take (Z.to_nat (sample_size - obj_count st)) (listed pages)))
    else scan_pages sample_size later (foldl scan_object st (listed pages)).
Proof.
  revert st. induction pages as [|[contents|] pages IH]; intros st Hlt.
  - simpl. rewrite decide_False by (simpl; lia). done.
  - change (listed (Some contents :: pages)) with (contents ++ listed pages)%list.
    simpl scan_pages. rewrite scan_contents_take by done.
    set (k := Z.to_nat (sample_size - obj_count st)) in *.
    rewrite foldl_scan_count, length_take, length_app.
    destruct (Z.leb_spec sample_size
                (obj_count st + Z.of_nat (k `min` length contents))) as [Hle|Hgt].
    + rewrite decide_True by lia.
      rewrite take_app_le by lia. done.
    + rewrite IH by (rewrite foldl_scan_count, length_take; lia).
      rewrite foldl_scan_count, length_take.
      assert (length contents < k)%nat as Hlen by lia.
      rewrite (take_ge contents k) by lia.
      replace (Z.to_nat (sample_size
                 - (obj_count st + Z.of_nat (k `min` length contents))))
        with (k - length contents)%nat by lia.
      rewrite foldl_app.
      destruct (decide (k - length contents <= length (listed pages))%nat).
      * rewrite decide_True by lia.
        rewrite take_app_ge by lia. by rewrite foldl_app.
      * rewrite decide_False by lia. done.
  - change (listed (None :: pages)) with (listed pages).
    simpl scan_pages. by apply IH.
Qed.

Lemma scan_pages_take {L : StrLower} (sample_size : Z) (pages : list Page) :
  0 < sample_size →
  scan_pages sample_size (Return <$> pages) scan_init
  = mret (foldl scan_object scan_init
            (take (Z.to_nat sample_size) (listed pages))).
Proof.
  intros Hpos.
  pose proof (scan_pages_app sample_size pages [] scan_init) as H.
  rewrite app_nil_r in H. rewrite H by done. clear H.
  change (obj_count scan_init) with 0. rewrite Z.sub_0_r.
  case_decide; [done|]. simpl. by rewrite take_ge by lia.
Qed.

Lemma analyze_objects_scanned {L : StrLower} (s3_client : S3)
    (bucket_name : string)
    (st : Scan) :
  scan_pages 1000 (paginate s3_client bucket_name) scan_init
    = ([], Return st) →
  analyze_objects s3_client bucket_name = ([], Return (summary_of st)).
Proof.
  intros H. unfold analyze_objects, analyze_objects_sized. by rewrite H.
Qed.

(** A listing error yields the empty summary and a warning. *)
Lemma analyze_objects_client_error {L : StrLower} (s3_client : S3)
    (bucket_name : string)
    (evs : list event) (code text : string) :
  scan_pages 1000 (paginate s3_client bucket_name) scan_init
    = (evs, Raise (ClientError code text)) →
  ∃ evs', analyze_objects s3_client bucket_name
          = (evs', Return (None, None, ∅, ∅)).
Proof.
  intros H. unfold analyze_objects, analyze_objects_sized. rewrite H.
  simpl. eauto.
Qed.

(** C5: when the listing is fetched without error, the scan returns
    normally, it inspects [min 1000 (number of objects listed)] objects,
    so never more than 1000, and its aggregates are those of the first
    1000 objects in listing order: of all of them when there are exactly
    1000 (or fewer), of the first 1000 alone when there are more. *)
Theorem scan_inspects_first_1000 {L : StrLower} (s3_client : S3)
    (bucket_name : string)
    (pages : list Page) :
  paginate s3_client bucket_name = Return <$> pages →
  let st := foldl scan_object scan_init (take 1000 (listed pages)) in
  scan_pages 1000 (paginate s3_client bucket_name) scan_init
    = ([], Return st) ∧
  analyze_objects s3_client bucket_name = ([], Return (summary_of st)) ∧
  obj_count st = Z.of_nat (1000 `min` length (listed pages)) ∧
  obj_count st <= 1000 ∧
  ((length (listed pages) <= 1000)%nat →
   st = foldl scan_object scan_init (listed pages)).
Proof.
  intros Hpages st.
  assert (scan_pages 1000 (paginate s3_client bucket_name) scan_init
          = ([], Return st)) as Hscan.
  { rewrite Hpages. by rewrite scan_pages_take. }
  assert (obj_count st = Z.of_nat (1000 `min` length (listed pages))) as Hc.
  { unfold st. rewrite foldl_scan_count, length_take. done. }
  split; [done|]. split; [by apply analyze_objects_scanned|].
  split; [done|]. split; [lia|].
  intros Hle. unfold st. by rewrite take_ge.
Qed.

Lemma scan_inspects_first_1000_witness :
  let st := foldl scan_object scan_init
              (take 1000 (listed [Some (numbered 1001)])) in
  scan_pages 1000 (paginate (numbered_bucket 1001) "b") scan_init
    = ([], Return st) ∧
  analyze_objects (numbered_bucket 1001) "b" = ([], Return (summary_of st)) ∧
  obj_count st = Z.of_nat (1000 `min` length (listed [Some (numbered 1001)])) ∧
  obj_count st <= 1000 ∧
  ((length (listed [Some (numbered 1001)]) <= 1000)%nat →
   st = foldl scan_object scan_init (listed [Some (numbered 1001)])).
Proof.
  apply (scan_inspects_first_1000 (numbered_bucket 1001) "b"
           [Some (numbered 1001)]).
  reflexivity.
Defined.

(** With 1001 objects the scan stops after the 1000th: the last one seen
    is object 999, not object 1000. *)
Example scan_1001_last_seen :
  ∃ folders docs,
    analyze_objects (numbered_bucket 1001) "b"
    = ([], Return (Some 0, Some 999, folders, docs)).
Proof. do 2 eexists. by vm_compute. Qed.

Example scan_1000_last_seen :
  ∃ folders docs,
    analyze_objects (numbered_bucket 1000) "b"
    = ([], Return (Some 0, Some 999, folders, docs)).
Proof. do 2 eexists. by vm_compute. Qed.


(** ** Prefixes and extensions *)

Lemma contains_append_char (c : ascii) (stem : string) :
  Py.contains c (stem +:+ String c EmptyString) = true.
Proof.
  induction stem as [|a r IH]; simpl.
  - by rewrite Ascii.eqb_refl.
  - by destruct (Ascii.eqb a c).
Qed.

Lemma after_last_append_char (c : ascii) (stem : string) :
  after_last c (stem +:+ String c EmptyString) = EmptyString.
Proof.
  induction stem as [|a r IH]; simpl.
  - by rewrite Ascii.eqb_refl.
  - by rewrite contains_append_char.
Qed.

(** C4: scanning an object increments the histogram at the lowercase
    suffix after the final "." of the base name of its key, and only when
    the base name has a "."; otherwise the histogram is unchanged, also
    when a directory segment has a ".".  The suffix is lower-cased by
    [str.lower], whatever function that is on non-ASCII letters. *)
Theorem extension_histogram_step {L : StrLower} (st : Scan) (obj : S3Object) :
  let base := Py.basename (Key obj) in
  let ext := str_lower (suffix_after_final "." base) in
  doc_types (scan_object st obj)
  = if Py.contains "." base
    then <[ ext := (default 0%nat (doc_types st !! ext) + 1)%nat ]>
           (doc_types st)
    else doc_types st.
Proof.
  simpl. unfold add_doc_type.
  destruct (Py.contains "." (Py.basename (Key obj))) eqn:Hdot; [|done].
  by rewrite extension_of_basename.
Qed.

(** C9: scanning an object adds the first path segment of its key to the
    prefix set exactly when the key has a "/"; otherwise the set is
    unchanged. *)
Theorem top_level_prefix_step {L : StrLower} (st : Scan) (obj : S3Object) :
  folder_structure (scan_object st obj)
  = if Py.contains "/" (Key obj)
    then {[ first_segment "/" (Key obj) ]} ∪ folder_structure st
    else folder_structure st.
Proof.
  simpl. unfold add_folder.
  destruct (Py.contains "/" (Key obj)); [|done].
  by rewrite first_split.
Qed.

(** C10: an object whose base name ends with "." is counted under the
    empty extension. *)
Theorem trailing_dot_counts_as_empty {L : StrLower} (st : Scan) (obj : S3Object)
    (stem : string) :
  Py.basename (Key obj) = stem +:+ "." →
  doc_types (scan_object st obj)
  = <[ "" := (default 0%nat (doc_types st !! "") + 1)%nat ]> (doc_types st).
Proof.
  intros Hbase. simpl. unfold add_doc_type.
  rewrite Hbase, contains_append_char.
  rewrite final_split.
  assert (Py.contains "." (after_last "/" (Key obj)) = true) as Hdot.
  { rewrite <- basename_after_last, Hbase. apply contains_append_char. }
  rewrite (after_last_within "." "/" (Key obj) Hdot).
  rewrite <- basename_after_last, Hbase, after_last_append_char.
  by rewrite str_lower_empty.
Qed.

Lemma trailing_dot_counts_as_empty_witness :
  doc_types (scan_object scan_init (object_at "file." 0))
  = <[ "" := (default 0%nat (doc_types scan_init !! "") + 1)%nat ]>
      (doc_types scan_init).
Proof.
  apply (trailing_dot_counts_as_empty scan_init (object_at "file." 0) "file").
  reflexivity.
Defined.

Example trailing_dot_lookup :
  doc_types (scan_object scan_init (object_at "dir/file." 0)) !! ""
  = Some 1%nat.
Proof. by vm_compute. Qed.

Example dotted_directory_not_counted :
  doc_types (scan_object scan_init (object_at "v1.2/README" 0)) = ∅.
Proof. by vm_compute. Qed.

(** The second scenario of the specification. *)
Example sample_bucket_summary :
  analyze_objects sample_bucket "b"
  = ([], Return (Some 7, Some 7, {[ "a" ]},
                 {[ "txt" := 1%nat; "gz" := 1%nat ]})).
Proof. by vm_compute. Qed.


(** ** Field lookups *)

(** C1, as amended: when the metrics query returns a result without a
    data point the storage field is "0.00 B" (zero bytes, formatted);
    when the query raises a ClientError the field is "N/A" and a warning
    is printed.  In both cases the lookup returns normally: every row
    built for the bucket carries that field, and a row is built as soon
    as the other lookups return. *)
Theorem storage_field_without_data {L : StrLower} (w : World) (s3_client : S3)
    (cloudwatch_client : CloudWatch) (costexplorer_client : CostExplorer)
    (aws_profile : string) (bucket : Bucket)
    (printed : list event) (shown : string) :
  ((∃ more, get_metric_data cloudwatch_client (Name bucket)
            = Return ([] :: more)) ∧
   printed = [] ∧ shown = "0.00 B") ∨
  (∃ code text,
     get_metric_data cloudwatch_client (Name bucket)
       = Raise (ClientError code text) ∧
     printed = [Print ("  - Warning: Could not get CloudWatch metrics for '"
                       +:+ Name bucket +:+ "'. Reason: " +:+ code)] ∧
     shown = "N/A") →
  get_bucket_storage_info cloudwatch_client (Name bucket)
    = (printed, Return shown) ∧
  (∀ evs row,
     bucket_row w s3_client cloudwatch_client costexplorer_client
       aws_profile bucket = (evs, Return row) →
     Total_Storage row = shown) ∧
  (∀ e2 estimated_cost constraint status e5 deletion_policy e6 summary,
     get_bucket_cost w costexplorer_client (Name bucket)
       = (e2, Return estimated_cost) →
     get_bucket_location s3_client (Name bucket) = Return constraint →
     get_bucket_versioning s3_client (Name bucket) = Return status →
     get_deletion_policy s3_client (Name bucket)
       = (e5, Return deletion_policy) →
     analyze_objects s3_client (Name bucket) = (e6, Return summary) →
     ∃ evs row,
       bucket_row w s3_client cloudwatch_client costexplorer_client
         aws_profile bucket = (evs, Return row) ∧
       Total_Storage row = shown).
Proof.
  intros H.
  assert (get_bucket_storage_info cloudwatch_client (Name bucket)
          = (printed, Return shown)) as Hinfo.
  { unfold get_bucket_storage_info.
    destruct H as [([more Hm] & -> & ->)|(code & text & Hm & -> & ->)];
      by rewrite Hm. }
  split; [done|]. split.
  - intros evs row Hrow.
    apply bucket_row_Return_inv in Hrow
      as (e1 & ts & _ & _ & _ & _ & _ & _ & _ & _ & _ & _ & _
          & H1 & _ & _ & _ & _ & _ & Hts & _).
    rewrite Hinfo in H1. by injection H1 as _ <-.
  - intros e2 cost constraint status e5 dp e6 summary H2 H3 H4 H5 H6.
    destruct (bucket_row_Return_intro w s3_client cloudwatch_client
                costexplorer_client aws_profile bucket _ _ _ _ _ _ _ _ _ _
                Hinfo H2 H3 H4 H5 H6) as (evs & row & Hrow & Hts & _).
    eauto.
Qed.

Lemma storage_field_without_data_witness :
  get_bucket_storage_info logs_cloudwatch (Name logs_bucket)
    = ([], Return "0.00 B") ∧
  get_bucket_storage_info denied_cloudwatch (Name logs_bucket)
    = ([Print "  - Warning: Could not get CloudWatch metrics for 'logs-bucket'. Reason: AccessDenied"],
       Return "N/A").
Proof.
  split.
  - refine (proj1 (storage_field_without_data logs_world logs_s3
                     logs_cloudwatch logs_costexplorer "default" logs_bucket
                     [] "0.00 B" _)).
    left. split; [by exists []|done].
  - refine (proj1 (storage_field_without_data denied_world denied_s3
                     denied_cloudwatch logs_costexplorer "audit" logs_bucket
                     _ "N/A" _)).
    right. by exists "AccessDenied", "An error occurred".
Defined.

(** C1 as the specification states it fails: in the first scenario the
    metrics query returns no data point, the row is built, and its
    storage field is "0.00 B", not "N/A". *)
Lemma storage_field_no_data_is_zero :
  get_metric_data logs_cloudwatch (Name logs_bucket) = Return [[]] ∧
  (∃ evs row,
     bucket_row logs_world logs_s3 logs_cloudwatch logs_costexplorer
       "default" logs_bucket = (evs, Return row) ∧
     Total_Storage row = "0.00 B") ∧
  "0.00 B" ≠ "N/A".
Proof.
  split; [done|]. split; [|done].
  do 2 eexists. split; [by vm_compute|done].
Qed.

(** A result list without any entry is not a missing data point: the
    index raises, and the exception is not a ClientError. *)
Lemma storage_lookup_index_error (cloudwatch_client : CloudWatch)
    (bucket_name : string) :
  get_metric_data cloudwatch_client bucket_name = Return [] →
  get_bucket_storage_info cloudwatch_client bucket_name
  = ([], Raise (Exception "list index out of range")).
Proof. intros H. unfold get_bucket_storage_info. by rewrite H. Qed.

Lemma days_lt_30 (delta : Z) : days delta < 30 ↔ delta < 30 * us_per_day.
Proof.
  unfold days, us_per_day. split; intros H.
  - destruct (Z.lt_ge_cases delta (30 * (86400 * 1000000))) as [|Hge]; [done|].
    pose proof (Z.div_le_lower_bound delta (86400 * 1000000) 30). lia.
  - apply Z.div_lt_upper_bound; lia.
Qed.

Lemma is_working_bucket_yes (now : Z) (last_seen : option Z) :
  is_working_bucket now last_seen = "Yes" ↔
  ∃ t, last_seen = Some t ∧ now - t < 30 * us_per_day.
Proof.
  unfold is_working_bucket. destruct last_seen as [t|].
  - destruct (Z.ltb_spec (days (now - t)) 30) as [H|H].
    + apply days_lt_30 in H. split; [eauto|done].
    + split; [done|]. intros (t' & [= <-] & Hlt).
      apply days_lt_30 in Hlt. lia.
  - split; [done|]. by intros (t & ? & _).
Qed.

Lemma is_working_bucket_no (now : Z) (last_seen : option Z) :
  is_working_bucket now last_seen ≠ "Yes" →
  is_working_bucket now last_seen = "No".
Proof.
  unfold is_working_bucket. destruct last_seen as [t|]; [|done].
  by destruct (days (now - t) <? 30).
Qed.

(** C2: the flag of a row is "Yes" exactly when the object analysis of
    the bucket gave a last-seen time less than 30 days before the analysis
    time, and "No" in every other case: when there is no last-seen time,
    as for a listing without objects or a listing that failed. *)
Theorem is_working_iff_recent {L : StrLower} (w : World) (s3_client : S3)
    (cloudwatch_client : CloudWatch) (costexplorer_client : CostExplorer)
    (aws_profile : string) (bucket : Bucket)
    (evs : list event) (row : BucketRow) :
  bucket_row w s3_client cloudwatch_client costexplorer_client aws_profile
    bucket = (evs, Return row) →
  ∃ e6 first_seen last_seen folders docs,
    analyze_objects s3_client (Name bucket)
      = (e6, Return (first_seen, last_seen, folders, docs)) ∧
    (Is_Working_Bucket row = "Yes" ↔
     ∃ t, last_seen = Some t ∧
          utc_now w (Name bucket) - t < 30 * us_per_day) ∧
    (Is_Working_Bucket row ≠ "Yes" → Is_Working_Bucket row = "No") ∧
    (∀ pages, paginate s3_client (Name bucket) = Return <$> pages →
              listed pages = [] → Is_Working_Bucket row = "No") ∧
    (∀ evs' code text,
       scan_pages 1000 (paginate s3_client (Name bucket)) scan_init
         = (evs', Raise (ClientError code text)) →
       Is_Working_Bucket row = "No").
Proof.
  intros Hrow.
  apply bucket_row_Return_inv in Hrow
    as (_ & _ & _ & _ & _ & _ & _ & _ & e6 & fs & ls & fo & dt
        & _ & _ & _ & _ & _ & H6 & _ & _ & _ & Hw).
  exists e6, fs, ls, fo, dt. rewrite Hw.
  split; [done|]. split; [apply is_working_bucket_yes|].
  split; [apply is_working_bucket_no|]. split.
  - intros pages Hpages Hnone.
    assert (scan_pages 1000 (paginate s3_client (Name bucket)) scan_init
            = ([], Return scan_init)) as Hscan.
    { rewrite Hpages, scan_pages_take by done. by rewrite Hnone. }
    apply analyze_objects_scanned in Hscan.
    rewrite H6 in Hscan. unfold summary_of in Hscan. by simplify_eq.
  - intros evs' code text Hscan.
    destruct (analyze_objects_client_error _ _ _ _ _ Hscan) as [e Ha].
    rewrite H6 in Ha. by simplify_eq.
Qed.

Lemma is_working_iff_recent_witness :
  ∃ e6 first_seen last_seen folders docs,
    analyze_objects logs_s3 (Name logs_bucket)
      = (e6, Return (first_seen, last_seen, folders, docs)) ∧
    (Is_Working_Bucket logs_row = "Yes" ↔
     ∃ t, last_seen = Some t ∧
          utc_now logs_world (Name logs_bucket) - t < 30 * us_per_day) ∧
    (Is_Working_Bucket logs_row ≠ "Yes" → Is_Working_Bucket logs_row = "No") ∧
    (∀ pages, paginate logs_s3 (Name logs_bucket) = Return <$> pages →
              listed pages = [] → Is_Working_Bucket logs_row = "No") ∧
    (∀ evs' code text,
       scan_pages 1000 (paginate logs_s3 (Name logs_bucket)) scan_init
         = (evs', Raise (ClientError code text)) →
       Is_Working_Bucket logs_row = "No").
Proof.
  apply (is_working_iff_recent logs_world logs_s3 logs_cloudwatch
           logs_costexplorer "default" logs_bucket
           (bucket_row logs_world logs_s3 logs_cloudwatch logs_costexplorer
              "default" logs_bucket).1
           logs_row).
  vm_compute. reflexivity.
Defined.

(** The first scenario of the specification, row by row. *)
Example logs_bucket_row :
  (bucket_row logs_world logs_s3 logs_cloudwatch logs_costexplorer
     "default" logs_bucket).2 = Return logs_row.
Proof. by vm_compute. Qed.

(** Exactly 30 days after the last modification the bucket is no longer
    a working bucket; one microsecond earlier it still is. *)
Example is_working_boundary :
  is_working_bucket (30 * us_per_day) (Some 0) = "No" ∧
  is_working_bucket (30 * us_per_day - 1) (Some 0) = "Yes".
Proof. by vm_compute. Qed.

Lemma get_deletion_policy_raise (s3_client : S3) (bucket_name : string)
    (e : exn) :
  get_bucket_lifecycle_configuration s3_client bucket_name = Raise e →
  get_deletion_policy s3_client bucket_name
  = if no_lifecycle e then ([], Return "Not Enabled") else ([], Raise e).
Proof.
  intros H. unfold get_deletion_policy, call. rewrite H.
  destruct e as [code text|text]; simpl; [|done].
  by destruct (String.eqb code "NoSuchLifecycleConfiguration").
Qed.

Lemma get_deletion_policy_return (s3_client : S3) (bucket_name : string) :
  get_bucket_lifecycle_configuration s3_client bucket_name = Return () →
  get_deletion_policy s3_client bucket_name = ([], Return "Enabled").
Proof. intros H. unfold get_deletion_policy, call. by rewrite H. Qed.

(** ** The loop over the buckets *)

Section Collect.
Context {L : StrLower}.
Variables (w : World) (s3_client : S3) (cloudwatch_client : CloudWatch)
          (costexplorer_client : CostExplorer) (aws_profile : string).

Let row_of := bucket_row w s3_client cloudwatch_client costexplorer_client
                aws_profile.
Let collect_from := collect w s3_client cloudwatch_client
                      costexplorer_client aws_profile.

(** A bucket whose body raises adds two or more lines to the console
    and nothing to the table. *)
Lemma collect_cons_skip (bucket : Bucket) (rest : list Bucket)
    (data : list BucketRow) (evs : list event) (e : exn) :
  row_of bucket = (evs, Raise e) →
  collect_from (bucket :: rest) data
  = ((Print (nl +:+ "Analyzing Bucket: " +:+ Name bucket) :: evs
       ++ [Print ("An unexpected error occurred while analyzing bucket '"
                  +:+ Name bucket +:+ "': " +:+ str e)])
      ++ (collect_from rest data).1,
     (collect_from rest data).2)%list.
Proof.
  unfold row_of, collect_from. intros H. simpl. rewrite H.
  unfold print. simpl.
  by destruct (collect _ _ _ _ _ rest data).
Qed.

Lemma collect_cons_row (bucket : Bucket) (rest : list Bucket)
    (data : list BucketRow) (evs : list event) (row : BucketRow) :
  row_of bucket = (evs, Return row) →
  collect_from (bucket :: rest) data
  = ((Print (nl +:+ "Analyzing Bucket: " +:+ Name bucket) :: evs)
      ++ (collect_from rest (data ++ [row])).1,
     (collect_from rest (data ++ [row])).2)%list.
Proof.
  unfold row_of, collect_from. intros H. simpl. rewrite H.
  unfold print. simpl.
  destruct (collect _ _ _ _ _ rest (data ++ [row])). simpl.
  by rewrite ?app_nil_r.
Qed.

(** The loop never raises, and never drops a row it was given. *)
Lemma collect_returns (buckets : list Bucket) (data : list BucketRow) :
  ∃ rows, (collect_from buckets data).2 = Return (data ++ rows)%list.
Proof.
  revert data. induction buckets as [|bucket rest IH]; intros data.
  - exists []. by rewrite app_nil_r.
  - destruct (row_of bucket) as [evs [row|e]] eqn:Hrow.
    + rewrite (collect_cons_row _ _ _ _ _ Hrow). simpl.
      destruct (IH (data ++ [row])%list) as [rows ->].
      exists (row :: rows). by rewrite <- app_assoc.
    + rewrite (collect_cons_skip _ _ _ _ _ Hrow). simpl. apply IH.
Qed.

Lemma collect_all_skipped (buckets : list Bucket) (data : list BucketRow) :
  Forall (λ bucket, ∃ evs e, row_of bucket = (evs, Raise e)) buckets →
  (collect_from buckets data).2 = Return data.
Proof.
  induction 1 as [|bucket rest (evs & e & Hrow) _ IH]; [done|].
  by rewrite (collect_cons_skip _ _ _ _ _ Hrow).
Qed.
End Collect.


(** ** Only the renderers write reports *)

Lemma quiet_mret {A : Type} (a : A) : quiet (mret a : M A).
Proof. constructor. Qed.

Lemma quiet_raise {A : Type} (e : exn) : quiet (raise e : M A).
Proof. constructor. Qed.

Lemma quiet_call {A : Type} (r : outcome A) : quiet (call r).
Proof. constructor. Qed.

Lemma quiet_print (line : string) : quiet (print line).
Proof. by repeat constructor. Qed.

Lemma quiet_bind {A B : Type} (m : M A) (f : A → M B) :
  quiet m → (∀ a, quiet (f a)) → quiet (m ≫= f).
Proof.
  unfold quiet. destruct m as [evs [a|e]]; simpl; [|done].
  intros Hm Hf. specialize (Hf a). destruct (f a) as [evs' r]. simpl in *.
  by apply Forall_app.
Qed.

Lemma quiet_try_except {A : Type} (body : M A) (handler : exn → M A) :
  quiet body → (∀ e, quiet (handler e)) → quiet (try_except body handler).
Proof.
  unfold quiet. destruct body as [evs [a|e]]; simpl; [done|].
  intros Hm Hh. specialize (Hh e). destruct (handler e) as [evs' r].
  simpl in *. by apply Forall_app.
Qed.

Create HintDb quiet.

#[local] Hint Resolve quiet_mret quiet_raise quiet_call quiet_print : quiet.

Ltac quiet_step :=
  first [ by auto with quiet
        | apply quiet_bind; [|intros ?]
        | apply quiet_try_except; [|intros ?] ].

Lemma quiet_index0 {A : Type} (l : list A) : quiet (index0 l).
Proof. destruct l; [apply quiet_raise|apply quiet_mret]. Qed.

Lemma quiet_storage (cloudwatch_client : CloudWatch) (bucket_name : string) :
  quiet (get_bucket_storage_info cloudwatch_client bucket_name).
Proof.
  unfold get_bucket_storage_info. repeat quiet_step.
  - apply quiet_index0.
  - case_match; repeat quiet_step.
Qed.

Lemma quiet_cost (w : World) (costexplorer_client : CostExplorer)
    (bucket_name : string) :
  quiet (get_bucket_cost w costexplorer_client bucket_name).
Proof.
  unfold get_bucket_cost. repeat quiet_step.
  - apply quiet_index0.
  - case_match; repeat quiet_step. case_match; repeat quiet_step.
Qed.

Lemma quiet_deletion_policy (s3_client : S3) (bucket_name : string) :
  quiet (get_deletion_policy s3_client bucket_name).
Proof.
  unfold get_deletion_policy. repeat quiet_step.
  repeat case_match; repeat quiet_step.
Qed.

Lemma quiet_scan_pages {L : StrLower} (sample_size : Z)
    (pages : list (outcome Page))
    (st : Scan) :
  quiet (scan_pages sample_size pages st).
Proof.
  revert st. induction pages as [|[[contents|]|e] pages IH]; intros st; simpl;
    auto with quiet.
  case_match; auto with quiet.
Qed.

Lemma quiet_analyze_objects {L : StrLower} (s3_client : S3)
    (bucket_name : string) :
  quiet (analyze_objects s3_client bucket_name).
Proof.
  unfold analyze_objects, analyze_objects_sized. repeat quiet_step.
  - apply quiet_scan_pages.
  - case_match; repeat quiet_step.
Qed.

#[local] Hint Resolve quiet_storage quiet_cost quiet_deletion_policy
  quiet_analyze_objects : quiet.

Lemma quiet_bucket_row {L : StrLower} (w : World) (s3_client : S3)
    (cloudwatch_client : CloudWatch) (costexplorer_client : CostExplorer)
    (aws_profile : string) (bucket : Bucket) :
  quiet (bucket_row w s3_client cloudwatch_client costexplorer_client
           aws_profile bucket).
Proof.
  unfold bucket_row. repeat quiet_step.
  match goal with
  | |- quiet match ?s with _ => _ end => destruct s as [[[? ?] ?] ?]
  end.
  apply quiet_mret.
Qed.

Lemma quiet_collect {L : StrLower} (w : World) (s3_client : S3)
    (cloudwatch_client : CloudWatch) (costexplorer_client : CostExplorer)
    (aws_profile : string) (buckets : list Bucket) (data : list BucketRow) :
  quiet (collect w s3_client cloudwatch_client costexplorer_client
           aws_profile buckets data).
Proof.
  revert data. induction buckets as [|bucket rest IH]; intros data;
    [apply quiet_mret|].
  cbn [collect]. pose proof quiet_bucket_row. repeat quiet_step.
Qed.

(** C6: when the lifecycle query raises, the "no lifecycle
    configuration" answer gives the deletion policy "Not Enabled" without
    any message or exception; any other exception is raised again by the
    lookup and by the per-bucket body, which then builds no row, and the
    loop goes on with the table unchanged. *)
Theorem lifecycle_error_handling {L : StrLower} (w : World) (s3_client : S3)
    (cloudwatch_client : CloudWatch) (costexplorer_client : CostExplorer)
    (aws_profile : string) (bucket : Bucket) (e : exn) :
  get_bucket_lifecycle_configuration s3_client (Name bucket) = Raise e →
  if no_lifecycle e then
    get_deletion_policy s3_client (Name bucket) = ([], Return "Not Enabled") ∧
    (∀ evs row,
       bucket_row w s3_client cloudwatch_client costexplorer_client
         aws_profile bucket = (evs, Return row) →
       Deletion_Policy row = "Not Enabled")
  else
    get_deletion_policy s3_client (Name bucket) = ([], Raise e) ∧
    (∃ evs e',
       bucket_row w s3_client cloudwatch_client costexplorer_client
         aws_profile bucket = (evs, Raise e')) ∧
    (∀ e1 total_storage e2 estimated_cost constraint status,
       get_bucket_storage_info cloudwatch_client (Name bucket)
         = (e1, Return total_storage) →
       get_bucket_cost w costexplorer_client (Name bucket)
         = (e2, Return estimated_cost) →
       get_bucket_location s3_client (Name bucket) = Return constraint →
       get_bucket_versioning s3_client (Name bucket) = Return status →
       ∃ evs,
         bucket_row w s3_client cloudwatch_client costexplorer_client
           aws_profile bucket = (evs, Raise e)) ∧
    (∀ rest data,
       (collect w s3_client cloudwatch_client costexplorer_client
          aws_profile (bucket :: rest) data).2
       = (collect w s3_client cloudwatch_client costexplorer_client
            aws_profile rest data).2).
Proof.
  intros Hlife. pose proof (get_deletion_policy_raise _ _ _ Hlife) as Hpol.
  destruct (no_lifecycle e) eqn:Hno.
  - split; [done|]. intros evs row Hrow.
    apply bucket_row_Return_inv in Hrow
      as (_ & _ & _ & _ & _ & _ & e5 & dp & _ & _ & _ & _ & _
          & _ & _ & _ & _ & H5 & _ & _ & _ & Hdp & _).
    rewrite Hpol in H5. by simplify_eq.
  - assert (∃ evs e',
              bucket_row w s3_client cloudwatch_client costexplorer_client
                aws_profile bucket = (evs, Raise e')) as (evs & e' & Hraise).
    { destruct (bucket_row w s3_client cloudwatch_client costexplorer_client
                  aws_profile bucket) as [evs [row|e']] eqn:Hrow; [|eauto].
      apply bucket_row_Return_inv in Hrow
        as (_ & _ & _ & _ & _ & _ & e5 & dp & _ & _ & _ & _ & _
            & _ & _ & _ & _ & H5 & _).
      rewrite Hpol in H5. done. }
    split; [done|]. split; [eauto|]. split.
    + intros e1 ts e2 cost constraint status H1 H2 H3 H4.
      unfold bucket_row. rewrite H1, H2, H3, H4, Hpol.
      unfold print, call. rewrite !bind_Return. simpl. eauto.
    + intros rest data. by rewrite (collect_cons_skip _ _ _ _ _ _ _ _ _ _ Hraise).
Qed.

Lemma lifecycle_error_handling_witness :
  (get_deletion_policy logs_s3 (Name logs_bucket)
     = ([], Return "Not Enabled") ∧
   (∀ evs row,
      bucket_row logs_world logs_s3 logs_cloudwatch logs_costexplorer
        "default" logs_bucket = (evs, Return row) →
      Deletion_Policy row = "Not Enabled")) ∧
  get_deletion_policy denied_s3 (Name logs_bucket)
    = ([], Raise (ClientError "AccessDenied" "An error occurred")).
Proof.
  split.
  - exact (lifecycle_error_handling logs_world logs_s3 logs_cloudwatch
             logs_costexplorer "default" logs_bucket
             (ClientError "NoSuchLifecycleConfiguration" "An error occurred")
             eq_refl).
  - exact (proj1 (lifecycle_error_handling denied_world denied_s3
                    logs_cloudwatch logs_costexplorer "audit" logs_bucket
                    (ClientError "AccessDenied" "An error occurred")
                    eq_refl)).
Defined.

(** A refused lifecycle query: the bucket is announced, the error is
    printed, and the table stays empty. *)
Example denied_bucket_skipped :
  collect denied_world denied_s3 logs_cloudwatch logs_costexplorer "audit"
    [logs_bucket] []
  = ([Print (nl +:+ "Analyzing Bucket: logs-bucket");
      Print "  - Getting storage and cost info...";
      Print "  - Info: Cost Explorer ValidationException. Enable 'Resource and tag-level data' in AWS Billing preferences.";
      Print "An unexpected error occurred while analyzing bucket 'logs-bucket': An error occurred"],
     Return []).
Proof. by vm_compute. Qed.

(** C7: when no row is collected, because there is no bucket or because
    the body raised for every bucket, the run prints that no report is
    generated and ends; no renderer output step is among its events. *)
Theorem no_rows_no_reports {L : StrLower} (w : World) (s3_client : S3)
    (cloudwatch_client : CloudWatch) (costexplorer_client : CostExplorer)
    (buckets : list Bucket) :
  session w
    = Return (s3_client, cloudwatch_client, costexplorer_client, buckets) →
  Forall (λ bucket,
            ∃ evs e,
              bucket_row w s3_client cloudwatch_client costexplorer_client
                (default "default" (AWS_PROFILE w)) bucket = (evs, Raise e))
         buckets →
  ∃ evs,
    get_s3_insights w
    = ((evs ++ [Print (nl +:+ "No buckets were found. Reports not generated.")])%list,
       Return ()) ∧
    Forall (λ ev, writes_report ev = false) evs.
Proof.
  intros Hs Hfail. unfold get_s3_insights. rewrite Hs.
  pose proof (collect_all_skipped _ _ _ _ _ _ [] Hfail) as Hrows.
  pose proof (quiet_collect w s3_client cloudwatch_client costexplorer_client
                (default "default" (AWS_PROFILE w)) buckets []) as Hq.
  destruct (collect w s3_client cloudwatch_client costexplorer_client
              (default "default" (AWS_PROFILE w)) buckets []) as [evs r].
  simpl in Hrows. subst r. unfold quiet in Hq. simpl in Hq.
  unfold print. rewrite !bind_Return. simpl.
  exists (Print ("Using AWS Profile: '" +:+ default "default" (AWS_PROFILE w)
                 +:+ "'") :: evs).
  split; [done|]. by constructor.
Qed.


Lemma no_rows_no_reports_witness :
  ∃ evs,
    get_s3_insights denied_world
    = ((evs ++ [Print (nl +:+ "No buckets were found. Reports not generated.")])%list,
       Return ()) ∧
    Forall (λ ev, writes_report ev = false) evs.
Proof.
  apply (no_rows_no_reports denied_world denied_s3 denied_cloudwatch
           logs_costexplorer [logs_bucket]); [reflexivity|].
  constructor; [|constructor].
  do 2 eexists. vm_compute. reflexivity.
Defined.

(** Without any bucket the same message is the whole report. *)
Example no_bucket_run {L : StrLower} (w : World) (s3_client : S3)
    (cloudwatch_client : CloudWatch) (costexplorer_client : CostExplorer) :
  session w = Return (s3_client, cloudwatch_client, costexplorer_client, []) →
  get_s3_insights w
  = ([Print ("Using AWS Profile: '" +:+ default "default" (AWS_PROFILE w)
             +:+ "'");
      Print (nl +:+ "No buckets were found. Reports not generated.")],
     Return ()).
Proof. intros H. unfold get_s3_insights. by rewrite H. Qed.

(** With a row collected both renderers run. *)
Example logs_world_reports :
  length (filter (λ ev, writes_report ev = true) (get_s3_insights logs_world).1)
  = 2%nat.
Proof. by vm_compute. Qed.

(** ** The summary tables *)

Lemma print_each_events (lines : list string) :
  print_each lines = (Print <$> lines, Return ()).
Proof.
  induction lines as [|line rest IH]; [done|].
  cbn [print_each]. rewrite IH. done.
Qed.

(** The tally of a region is the number of rows of that region. *)
Lemma tally_lookup (df : list BucketRow) (m : gmap string nat)
    (region : string) :
  foldl tally_row m df !! region
  = match length (filter (λ row, Region row = region) df) with
    | O => m !! region
    | S n => Some (default 0%nat (m !! region) + S n)%nat
    end.
Proof.
  revert m. induction df as [|row df IH]; intros m; [done|].
  simpl foldl. rewrite IH. unfold tally_row.
  rewrite filter_cons. destruct (decide (Region row = region)) as [->|Hne].
  - rewrite lookup_insert_eq. simpl.
    destruct (length (filter _ df)); f_equal; lia.
  - by rewrite lookup_insert_ne.
Qed.

Lemma groupby_region_count_lookup (df : list BucketRow) (region : string) :
  region ∈ Region <$> df →
  groupby_region_count df !! region
  = Some (length (filter (λ row, Region row = region) df)) ∧
  (0 < length (filter (λ row, Region row = region) df))%nat.
Proof.
  intros (row & -> & Hin)%list_elem_of_fmap.
  unfold groupby_region_count. rewrite tally_lookup.
  assert (row ∈ filter (λ r, Region r = Region row) df) as Hf
    by (by apply list_elem_of_filter).
  destruct (filter _ df) as [|x l] eqn:Hfl; [by apply elem_of_nil in Hf|].
  simpl. split; [|lia]. by rewrite lookup_empty.
Qed.

Lemma summary_count_elem (rows : list (string * nat)) (region : string)
    (n : nat) :
  NoDup rows.*1 → (region, n) ∈ rows → summary_count region rows = Some n.
Proof.
  induction rows as [|[r k] rows IH]; simpl; intros Hnd Hin.
  - by apply elem_of_nil in Hin.
  - apply NoDup_cons in Hnd as [Hr Hnd].
    apply elem_of_cons in Hin as [[= <- <-]|Hin].
    + by rewrite decide_True.
    + rewrite decide_False; [by apply IH|].
      intros ->. apply Hr. apply list_elem_of_fmap. by exists (region, n).
Qed.

(** The summary rows give every region of the table its number of rows. *)
Lemma summary_rows_count (df : list BucketRow) (region : string) :
  region ∈ Region <$> df →
  summary_count region (summary_rows df)
  = Some (length (filter (λ row, Region row = region) df)).
Proof.
  intros Hin. destruct (groupby_region_count_lookup df region Hin) as [Hl _].
  unfold summary_rows. apply summary_count_elem.
  - rewrite merge_sort_Permutation. apply NoDup_fst_map_to_list.
  - rewrite merge_sort_Permutation. by apply elem_of_map_to_list.
Qed.

Lemma elem_of_concat {A : Type} (x : A) (ls : list (list A)) :
  x ∈ concat ls ↔ ∃ l, l ∈ ls ∧ x ∈ l.
Proof.
  induction ls as [|l ls IH]; simpl.
  - split; [by intros ?%elem_of_nil|]. by intros (l & ?%elem_of_nil & _).
  - rewrite elem_of_app, IH. split.
    + intros [H|(l' & H1 & H2)].
      * exists l. split; [left|done].
      * exists l'. split; [by right|done].
    + intros (l' & [->|H1]%elem_of_cons & H2); [by left|].
      right. by exists l'.
Qed.

Lemma generate_excel_report_events (w : World) (df : list BucketRow)
    (aws_profile : string) :
  generate_excel_report w df aws_profile
  = ((Print (nl +:+ "Creating Excel summary sheet...")
      :: (Print <$> map (λ region, "Creating Excel sheet for region: "
                                   +:+ region +:+ "...")
                        (sorted_regions df)))
     ++ [SaveWorkbook (excel_workbook w df aws_profile);
         Print ("✅ Excel report generated successfully: "
                +:+ xlsx_path (excel_workbook w df aws_profile))],
     Return ())%list.
Proof.
  unfold generate_excel_report. rewrite print_each_events.
  unfold print. rewrite !bind_Return. simpl. done.
Qed.

Lemma generate_pdf_report_events (w : World) (df : list BucketRow)
    (aws_profile : string) :
  generate_pdf_report w df aws_profile
  = ((Print (nl +:+ "Creating PDF report...")
      :: (Print <$> map (λ region, "Creating PDF section for region: "
                                   +:+ region +:+ "...")
                        (sorted_regions df)))
     ++ [BuildDocument (pdf_document w df aws_profile);
         Print ("✅ PDF report generated successfully: "
                +:+ pdf_path (pdf_document w df aws_profile))],
     Return ())%list.
Proof.
  unfold generate_pdf_report. rewrite print_each_events.
  unfold print. rewrite !bind_Return. simpl. done.
Qed.

Lemma saved_workbook (w : World) (df : list BucketRow) (aws_profile : string)
    (wb : Workbook) :
  SaveWorkbook wb ∈ (generate_excel_report w df aws_profile).1 ↔
  wb = excel_workbook w df aws_profile.
Proof.
  rewrite generate_excel_report_events. simpl.
  rewrite elem_of_cons, elem_of_app, list_elem_of_fmap, !elem_of_cons.
  split.
  - intros [?|[(? & ? & _)|[[= ->]|[?|?%elem_of_nil]]]]; done.
  - intros ->. right. right. by left.
Qed.

Lemma built_document (w : World) (df : list BucketRow) (aws_profile : string)
    (doc : Document) :
  BuildDocument doc ∈ (generate_pdf_report w df aws_profile).1 ↔
  doc = pdf_document w df aws_profile.
Proof.
  rewrite generate_pdf_report_events. simpl.
  rewrite elem_of_cons, elem_of_app, list_elem_of_fmap, !elem_of_cons.
  split.
  - intros [?|[(? & ? & _)|[[= ->]|[?|?%elem_of_nil]]]]; done.
  - intros ->. right. right. by left.
Qed.

(** The only summary table of the document is the one after the title. *)
Lemma summary_table_of_document (w : World) (df : list BucketRow)
    (aws_profile : string) (columns : list string)
    (rows : list (string * nat)) :
  SummaryTable columns rows ∈ story (pdf_document w df aws_profile) ↔
  columns = ["Region"; "Bucket Count"] ∧ rows = summary_rows df.
Proof.
  simpl. rewrite !elem_of_cons, elem_of_concat. split.
  - intros [?|[?|[?|[?|[?|[[= -> ->]|[?|(l & Hl & Hin)]]]]]]]; try done.
    apply list_elem_of_In, in_map_iff in Hl as (region & <- & _).
    unfold region_section in Hin.
    rewrite !elem_of_cons in Hin.
    by destruct Hin as [?|[?|[?|?%elem_of_nil]]].
  - intros [-> ->]. do 5 right. by left.
Qed.

(** C8: for a region of the table, the summary sheet of the workbook and
    the summary table of the document give the same count, the number of
    rows of the table whose region it is. *)
Theorem region_counts_agree (w : World) (df : list BucketRow)
    (aws_profile region : string) :
  region ∈ Region <$> df →
  let count := length (filter (λ row, Region row = region) df) in
  (∃ wb, SaveWorkbook wb ∈ (generate_excel_report w df aws_profile).1) ∧
  (∀ wb,
     SaveWorkbook wb ∈ (generate_excel_report w df aws_profile).1 →
     summary_count region (xlsx_summary wb) = Some count) ∧
  (∃ doc columns rows,
     BuildDocument doc ∈ (generate_pdf_report w df aws_profile).1 ∧
     SummaryTable columns rows ∈ story doc) ∧
  (∀ doc columns rows,
     BuildDocument doc ∈ (generate_pdf_report w df aws_profile).1 →
     SummaryTable columns rows ∈ story doc →
     summary_count region rows = Some count) ∧
  (0 < count)%nat.
Proof.
  intros Hin count. pose proof (summary_rows_count df region Hin) as Hcount.
  split; [|split; [|split; [|split]]].
  - exists (excel_workbook w df aws_profile). by apply saved_workbook.
  - intros wb ->%saved_workbook. done.
  - exists (pdf_document w df aws_profile), ["Region"; "Bucket Count"],
      (summary_rows df).
    split; [by apply built_document|by apply summary_table_of_document].
  - intros doc columns rows ->%built_document
      [_ ->]%summary_table_of_document. done.
  - by destruct (groupby_region_count_lookup df region Hin).
Qed.

Lemma region_counts_agree_witness :
  let count := length (filter (λ row, Region row = "us-east-1") sample_table) in
  (∃ wb, SaveWorkbook wb
         ∈ (generate_excel_report logs_world sample_table "default").1) ∧
  (∀ wb,
     SaveWorkbook wb
       ∈ (generate_excel_report logs_world sample_table "default").1 →
     summary_count "us-east-1" (xlsx_summary wb) = Some count) ∧
  (∃ doc columns rows,
     BuildDocument doc
       ∈ (generate_pdf_report logs_world sample_table "default").1 ∧
     SummaryTable columns rows ∈ story doc) ∧
  (∀ doc columns rows,
     BuildDocument doc
       ∈ (generate_pdf_report logs_world sample_table "default").1 →
     SummaryTable columns rows ∈ story doc →
     summary_count "us-east-1" rows = Some count) ∧
  (0 < count)%nat.
Proof.
  apply (region_counts_agree logs_world sample_table "default" "us-east-1").
  apply list_elem_of_fmap. exists (row_in "photos" "us-east-1").
  split; [reflexivity|]. left.
Defined.

(** The two summaries of the sample table, in region order. *)
Example sample_table_summary :
  xlsx_summary (excel_workbook logs_world sample_table "default")
  = [("eu-west-1", 1%nat); ("us-east-1", 2%nat)] ∧
  sorted_regions sample_table = ["eu-west-1"; "us-east-1"].
Proof. by vm_compute. Qed.


(** * Further properties *)

(** ** [format_bytes]: the unit and the rounding *)

(** The index never decreases; if it is unchanged so is the value, and
    once the loop has divided the value is at least 1. *)
Lemma format_loop_shape (k : nat) (b : Q) (n : nat) :
  (n <= (format_loop k b n).2)%nat ∧
  ((format_loop k b n).2 = n → (format_loop k b n).1 = b) ∧
  ((n < (format_loop k b n).2)%nat → (1 <= (format_loop k b n).1)%Q).
Proof.
  revert b n. induction k as [|k IH]; intros b n; rewrite format_loop_unfold.
  - destruct (Qle_bool power b && (n <? 4)%nat); simpl; repeat split; lia || done.
  - destruct (Qle_bool power b) eqn:Hle; simpl;
      [|repeat split; lia || done].
    destruct (n <? 4)%nat; simpl; [|repeat split; lia || done].
    destruct (IH (b / power)%Q (S n)) as (Hidx & Hsame & Hdiv).
    split; [lia|]. split; [lia|]. intros _.
    destruct (decide ((format_loop k (b / power) (S n)).2 = S n)) as [He|Hne].
    + rewrite (Hsame He). apply Qle_shift_div_l; [apply power_pos|].
      rewrite Qmult_1_l. by apply Qle_bool_iff.
    + apply Hdiv. lia.
Qed.

(** X1: The unit printed for [b >= 0] is the largest one not above [b], B
    for values below 1024 and TB from [1024^4] on: with [n] the index of
    the unit, [1024^n <= b] when [n > 0] and [b < 1024^(n+1)] when
    [n < 4]. *)
Theorem format_bytes_unit_choice (b : Q) :
  (0 <= b)%Q →
  let n := printed_unit b in
  (n <= 4)%nat ∧
  ((0 < n)%nat → (power ^ Z.of_nat n <= b)%Q) ∧
  ((n < 4)%nat → (b < power ^ Z.of_nat (n + 1))%Q).
Proof.
  intros Hb n.
  destruct (format_loop_exits (size power_labels) b 0 Hb)
    as (v & m & Heq & Hm & Hv & Hlt & Hsc);
    [lia | rewrite size_power_labels; lia |].
  destruct (format_loop_shape (size power_labels) b 0) as (_ & _ & Hdiv).
  unfold n, printed_unit. rewrite Heq in Hdiv |- *. simpl in *.
  rewrite Nat.sub_0_r in Hsc.
  assert (0 < power ^ Z.of_nat m)%Q as Hpos
    by (apply Qpower_0_lt, power_pos).
  split; [lia|]. split.
  - intros Hm0. rewrite Hsc. rewrite <- (Qmult_1_l (power ^ Z.of_nat m)) at 1.
    apply Qmult_le_compat_r; [by apply Hdiv|by apply Qlt_le_weak].
  - intros Hm4. rewrite Hsc.
    replace (Z.of_nat (m + 1)) with (Z.of_nat m + 1) by lia.
    rewrite Qpower_plus by done. rewrite (Qmult_comm (power ^ Z.of_nat m)).
    apply Qmult_lt_compat_r; [done|]. simpl. by apply Hlt.
Qed.

Lemma format_bytes_unit_choice_witness :
  let n := printed_unit 1048575%Q in
  (n <= 4)%nat ∧
  ((0 < n)%nat → (power ^ Z.of_nat n <= 1048575)%Q) ∧
  ((n < 4)%nat → (1048575 < power ^ Z.of_nat (n + 1))%Q).
Proof. apply (format_bytes_unit_choice 1048575%Q). discriminate. Defined.






(** ** The object scan: what the aggregates hold *)

Lemma foldl_scan_snoc {L : StrLower} (st : Scan) (l : list S3Object)
    (obj : S3Object) :
  foldl scan_object st (l ++ [obj])%list = scan_object (foldl scan_object st l) obj.
Proof. by rewrite foldl_app. Qed.

Lemma scan_extremes {L : StrLower} (l : list S3Object) :
  l ≠ [] →
  ∃ lo hi,
    first_record_date (foldl scan_object scan_init l) = Some lo ∧
    last_record_date (foldl scan_object scan_init l) = Some hi ∧
    (∀ obj, obj ∈ l → lo <= LastModified obj <= hi) ∧
    (∃ obj, obj ∈ l ∧ LastModified obj = lo) ∧
    (∃ obj, obj ∈ l ∧ LastModified obj = hi).
Proof.
  induction l as [|x l IH] using rev_ind; [done|]. intros _.
  rewrite foldl_scan_snoc. destruct (decide (l = [])) as [->|Hne].
  - exists (LastModified x), (LastModified x).
    split; [done|]. split; [done|]. split.
    + intros obj ->%list_elem_of_singleton. lia.
    + split; exists x; (split; [by apply list_elem_of_singleton|done]).
  - destruct (IH Hne)
      as (lo & hi & Hf & Hl & Hb & (o1 & Ho1 & <-) & (o2 & Ho2 & <-)).
    simpl. rewrite Hf, Hl.
    pose proof (Hb o1 Ho1). pose proof (Hb o2 Ho2).
    exists (if LastModified x <? LastModified o1
            then LastModified x else LastModified o1),
           (if LastModified o2 <? LastModified x
            then LastModified x else LastModified o2).
    split; [by case_match|]. split; [by case_match|]. split; [|split].
    + intros obj [Hin| ->%list_elem_of_singleton]%elem_of_app.
      * pose proof (Hb obj Hin). repeat case_match; lia.
      * repeat case_match; lia.
    + destruct (LastModified x <? LastModified o1).
      * exists x. split; [apply elem_of_app; right; by left|done].
      * exists o1. split; [apply elem_of_app; by left|done].
    + destruct (LastModified o2 <? LastModified x).
      * exists x. split; [apply elem_of_app; right; by left|done].
      * exists o2. split; [apply elem_of_app; by left|done].
Qed.

(** X3: The first and the last record date are the least and the greatest
    modification time among the objects scanned: both are attained and
    bound every object; without objects both are absent. *)
Theorem first_last_seen_are_extremes {L : StrLower} (l : list S3Object) :
  let st := foldl scan_object scan_init l in
  match l with
  | [] => first_record_date st = None ∧ last_record_date st = None
  | _ :: _ =>
      ∃ lo hi,
        first_record_date st = Some lo ∧ last_record_date st = Some hi ∧
        (∀ obj, obj ∈ l → lo <= LastModified obj <= hi) ∧
        (∃ obj, obj ∈ l ∧ LastModified obj = lo) ∧
        (∃ obj, obj ∈ l ∧ LastModified obj = hi)
  end.
Proof. destruct l as [|x l]; [done|]. by apply scan_extremes. Qed.

Lemma add_doc_type_extension {L : StrLower} (key : string)
    (docs : gmap string nat) :
  add_doc_type key docs
  = match extension key with
    | Some ext => <[ ext := (default 0%nat (docs !! ext) + 1)%nat ]> docs
    | None => docs
    end.
Proof.
  unfold add_doc_type, extension.
  destruct (Py.contains "." (Py.basename key)) eqn:Hdot; [|done].
  by rewrite extension_of_basename.
Qed.

Lemma doc_types_lookup {L : StrLower} (l : list S3Object) (st : Scan)
    (ext : string) :
  doc_types (foldl scan_object st l) !! ext
  = match length (filter (λ obj, extension (Key obj) = Some ext) l) with
    | O => doc_types st !! ext
    | S n => Some (default 0%nat (doc_types st !! ext) + S n)%nat
    end.
Proof.
  revert st. induction l as [|obj l IH]; intros st; [done|].
  simpl foldl. rewrite IH.
  change (doc_types (scan_object st obj))
    with (add_doc_type (Key obj) (doc_types st)).
  rewrite !add_doc_type_extension, filter_cons.
  destruct (extension (Key obj)) as [e|] eqn:He.
  - destruct (decide (Some e = Some ext)) as [[= ->]|Hne].
    + rewrite lookup_insert_eq. simpl.
      destruct (length (filter _ l)); f_equal; lia.
    + rewrite lookup_insert_ne by congruence. done.
  - rewrite decide_False by done. done.
Qed.

(** X4: The histogram counts, under each extension, the scanned objects whose
    lower-cased extension it is; an extension without such an object has
    no entry. *)
Theorem extension_histogram_counts {L : StrLower} (l : list S3Object)
    (ext : string) :
  doc_types (foldl scan_object scan_init l) !! ext
  = match length (filter (λ obj, extension (Key obj) = Some ext) l) with
    | O => None
    | S n => Some (S n)
    end.
Proof. rewrite doc_types_lookup. by destruct (length _). Qed.

(** Two spellings of one extension share a count. *)
Example extension_histogram_case :
  doc_types (foldl scan_object scan_init
               [object_at "a/Report.PDF" 1; object_at "b.pdf" 2;
                object_at "c.Pdf" 3]) = {[ "pdf" := 3%nat ]}.
Proof. by vm_compute. Qed.

Lemma histogram_total_bump (m : gmap string nat) (k : string) :
  histogram_total (<[ k := (default 0%nat (m !! k) + 1)%nat ]> m)
  = S (histogram_total m).
Proof.
  unfold histogram_total.
  assert (∀ (m' : gmap string nat) (j1 j2 : string) (z1 z2 y : nat),
            j1 ≠ j2 → m' !! j1 = Some z1 → m' !! j2 = Some z2 →
            (z1 + (z2 + y) = z2 + (z1 + y))%nat) as Hcomm by (intros; lia).
  destruct (m !! k) as [v|] eqn:Hk; simpl.
  - rewrite <- (insert_delete_eq m k (v + 1)%nat).
    rewrite map_fold_insert_L; [|by eauto|by rewrite lookup_delete_eq].
    rewrite (map_fold_delete_L _ _ k v m); [lia|by eauto|done].
  - rewrite map_fold_insert_L; [lia|by eauto|done].
Qed.

Lemma histogram_total_scan {L : StrLower} (l : list S3Object) (st : Scan) :
  histogram_total (doc_types (foldl scan_object st l))
  = (histogram_total (doc_types st)
     + length (filter (λ obj, is_Some (extension (Key obj))) l))%nat.
Proof.
  revert st. induction l as [|obj l IH]; intros st; simpl foldl; [simpl; lia|].
  rewrite IH, filter_cons.
  change (doc_types (scan_object st obj))
    with (add_doc_type (Key obj) (doc_types st)).
  rewrite add_doc_type_extension.
  destruct (extension (Key obj)) as [e|].
  - rewrite decide_True by eauto. rewrite histogram_total_bump. simpl. lia.
  - rewrite decide_False by (by intros [? ?]). done.
Qed.

(** X5: The counts of the histogram add up to the number of scanned objects
    that have an extension: no such object is counted twice or lost. *)
Theorem extension_histogram_total {L : StrLower} (l : list S3Object) :
  histogram_total (doc_types (foldl scan_object scan_init l))
  = length (filter (λ obj, is_Some (extension (Key obj))) l).
Proof. by rewrite histogram_total_scan. Qed.

Lemma folder_structure_scan {L : StrLower} (l : list S3Object) (st : Scan)
    (x : string) :
  x ∈ folder_structure (foldl scan_object st l) ↔
  x ∈ folder_structure st ∨
  ∃ obj, obj ∈ l ∧ Py.contains "/" (Key obj) = true ∧
         x = first_segment "/" (Key obj).
Proof.
  revert st. induction l as [|obj l IH]; intros st; simpl foldl.
  - split; [by left|]. intros [?|(obj & ?%elem_of_nil & _)]; done.
  - rewrite IH.
    change (folder_structure (scan_object st obj))
      with (add_folder (Key obj) (folder_structure st)).
    unfold add_folder. rewrite first_split.
    destruct (Py.contains "/" (Key obj)) eqn:Hc.
    + rewrite elem_of_union, elem_of_singleton. split.
      * intros [[->|?]|(o & Ho & H1 & H2)]; [right|by left|right].
        -- exists obj. split; [by left|done].
        -- exists o. split; [by right|done].
      * intros [?|(o & [->|Ho]%elem_of_cons & H1 & H2)];
          [left; by right|left; by left|right; by exists o].
    + split.
      * intros [?|(o & Ho & H1 & H2)]; [by left|right].
        exists o. split; [by right|done].
      * intros [?|(o & [->|Ho]%elem_of_cons & H1 & H2)];
          [by left|congruence|right; by exists o].
Qed.

(** X6: The prefix set holds exactly the first segments of the scanned keys
    that have a "/". *)
Theorem top_level_prefixes_of_scan {L : StrLower} (l : list S3Object)
    (x : string) :
  x ∈ folder_structure (foldl scan_object scan_init l) ↔
  ∃ obj, obj ∈ l ∧ Py.contains "/" (Key obj) = true ∧
         x = first_segment "/" (Key obj).
Proof.
  rewrite folder_structure_scan. split; [|by right].
  intros [H|H]; [|done]. by apply elem_of_empty in H.
Qed.

(** A key that starts with "/" puts the empty prefix into the set. *)
Example leading_slash_prefix :
  folder_structure (scan_object scan_init (object_at "/var/log" 0)) = {[ "" ]}.
Proof. by vm_compute. Qed.


(** ** The object scan: errors and the cap *)

(** X7: A ClientError of the listing before the cap is reached discards what
    the earlier pages gave: the summary is empty and a warning is
    printed. *)
Theorem listing_error_discards_scan {L : StrLower} (s3_client : S3)
    (bucket_name : string)
    (pages : list Page) (code text : string) (later : list (outcome Page)) :
  paginate s3_client bucket_name
    = ((Return <$> pages) ++ Raise (ClientError code text) :: later)%list →
  (length (listed pages) < 1000)%nat →
  analyze_objects s3_client bucket_name
  = ([Print ("  - Warning: Could not list objects in '" +:+ bucket_name
             +:+ "'. Skipping object analysis. Error: " +:+ code)],
     Return (None, None, ∅, ∅)).
Proof.
  intros Hp Hlen. unfold analyze_objects, analyze_objects_sized.
  rewrite Hp, scan_pages_app by done.
  change (obj_count scan_init) with 0.
  rewrite decide_False by lia. done.
Qed.

Lemma listing_error_discards_scan_witness :
  analyze_objects failing_listing "b"
  = ([Print "  - Warning: Could not list objects in 'b'. Skipping object analysis. Error: SlowDown"],
     Return (None, None, ∅, ∅)).
Proof.
  apply (listing_error_discards_scan failing_listing "b"
           [Some [object_at "a/x.txt" 1]; None]
           "SlowDown" "An error occurred" []).
  - reflexivity.
  - simpl. lia.
Defined.

(** X8: Pages after the one that reaches the cap are never fetched: an error
    there changes nothing. *)
Theorem listing_error_after_cap {L : StrLower} (s3_client : S3)
    (bucket_name : string)
    (pages : list Page) (later : list (outcome Page)) :
  paginate s3_client bucket_name = ((Return <$> pages) ++ later)%list →
  (1000 <= length (listed pages))%nat →
  analyze_objects s3_client bucket_name
  = ([], Return (summary_of (foldl scan_object scan_init
                               (take 1000 (listed pages))))).
Proof.
  intros Hp Hlen. unfold analyze_objects, analyze_objects_sized.
  rewrite Hp, scan_pages_app by done.
  change (obj_count scan_init) with 0.
  rewrite decide_True by lia. done.
Qed.

Lemma numbered_listed_length (n : nat) :
  length (listed [Some (numbered n)]) = n.
Proof.
  change (listed [Some (numbered n)]) with (numbered n ++ [])%list.
  unfold numbered. by rewrite app_nil_r, length_fmap, length_seq.
Defined.

Lemma listing_error_after_cap_witness :
  analyze_objects capped_listing "b"
  = ([], Return (summary_of (foldl scan_object scan_init
                               (take 1000 (listed [Some (numbered 1000)]))))).
Proof.
  apply (listing_error_after_cap capped_listing "b" [Some (numbered 1000)]
           [Raise (ClientError "SlowDown" "An error occurred")]).
  - reflexivity.
  - rewrite numbered_listed_length. lia.
Defined.

(** X9: An exception of the listing that is not a ClientError is not handled
    by [analyze_objects]: it leaves the per-bucket body, and the bucket
    gets no row. *)
Theorem listing_exception_skips_bucket {L : StrLower} (w : World)
    (s3_client : S3)
    (cloudwatch_client : CloudWatch) (costexplorer_client : CostExplorer)
    (aws_profile : string) (bucket : Bucket)
    (pages : list Page) (text : string) (later : list (outcome Page)) :
  paginate s3_client (Name bucket)
    = ((Return <$> pages) ++ Raise (Exception text) :: later)%list →
  (length (listed pages) < 1000)%nat →
  analyze_objects s3_client (Name bucket) = ([], Raise (Exception text)) ∧
  collected_row w s3_client cloudwatch_client costexplorer_client
    aws_profile bucket = None.
Proof.
  intros Hp Hlen.
  assert (analyze_objects s3_client (Name bucket)
          = ([], Raise (Exception text))) as Ha.
  { unfold analyze_objects, analyze_objects_sized.
    rewrite Hp, scan_pages_app by done.
    change (obj_count scan_init) with 0.
    rewrite decide_False by lia. done. }
  split; [done|]. unfold collected_row.
  destruct (bucket_row w s3_client cloudwatch_client costexplorer_client
              aws_profile bucket) as [evs [row|e]] eqn:Hrow; [|done].
  apply bucket_row_Return_inv in Hrow
    as (_ & _ & _ & _ & _ & _ & _ & _ & e6 & fs & ls & fo & dt
        & _ & _ & _ & _ & _ & H6 & _).
  rewrite Ha in H6. done.
Qed.

Lemma listing_exception_skips_bucket_witness :
  analyze_objects broken_listing (Name logs_bucket)
    = ([], Raise (Exception "Connection reset")) ∧
  collected_row logs_world broken_listing logs_cloudwatch logs_costexplorer
    "default" logs_bucket = None.
Proof.
  apply (listing_exception_skips_bucket logs_world broken_listing
           logs_cloudwatch logs_costexplorer "default" logs_bucket
           [Some [object_at "a/x.txt" 1]] "Connection reset" []).
  - reflexivity.
  - simpl. lia.
Defined.

(** X10: For any positive [sample_size] the scan covers the first
    [sample_size] objects of a listing fetched without error. *)
Theorem scan_covers_sample_size {L : StrLower} (s3_client : S3)
    (bucket_name : string)
    (sample_size : Z) (pages : list Page) :
  0 < sample_size →
  paginate s3_client bucket_name = Return <$> pages →
  analyze_objects_sized s3_client bucket_name sample_size
  = ([], Return (summary_of (foldl scan_object scan_init
                               (take (Z.to_nat sample_size) (listed pages))))).
Proof.
  intros Hpos Hp. unfold analyze_objects_sized.
  by rewrite Hp, scan_pages_take.
Qed.

Lemma scan_covers_sample_size_witness :
  analyze_objects_sized sample_bucket "b" 2
  = ([], Return (summary_of
                   (foldl scan_object scan_init
                      (take (Z.to_nat 2)
                         (listed [Some [object_at "a/b/file.TXT" 7;
                                        object_at "c.tar.gz" 7;
                                        object_at "noext" 7]]))))).
Proof.
  apply (scan_covers_sample_size sample_bucket "b" 2); [lia|reflexivity].
Defined.

(** X11: The cap is tested after an object has been processed: with a
    [sample_size] of zero or less the scan still takes the first object
    of the first page, and stops there. *)
Theorem scan_takes_one_object {L : StrLower} (s3_client : S3)
    (bucket_name : string)
    (sample_size : Z) (obj : S3Object) (rest : list S3Object)
    (later : list (outcome Page)) :
  sample_size <= 0 →
  paginate s3_client bucket_name = Return (Some (obj :: rest)) :: later →
  analyze_objects_sized s3_client bucket_name sample_size
  = ([], Return (summary_of (scan_object scan_init obj))).
Proof.
  intros Hs Hp. unfold analyze_objects_sized. rewrite Hp.
  cbn [scan_pages scan_contents].
  change (obj_count (scan_object scan_init obj)) with 1.
  assert ((sample_size <=? 1) = true) as -> by lia.
  change (obj_count (scan_object scan_init obj)) with 1.
  assert ((sample_size <=? 1) = true) as -> by lia.
  done.
Qed.

Lemma scan_takes_one_object_witness :
  analyze_objects_sized sample_bucket "b" 0
  = ([], Return (summary_of
                   (scan_object scan_init (object_at "a/b/file.TXT" 7)))).
Proof.
  apply (scan_takes_one_object sample_bucket "b" 0
           (object_at "a/b/file.TXT" 7)
           [object_at "c.tar.gz" 7; object_at "noext" 7] []);
    [lia|reflexivity].
Defined.


(** ** Field lookups: degradation and skipping *)

(** X12: A ClientError of the billing query gives the cost "N/A": the lookup
    prints a hint about the billing preferences for a
    ValidationException, a warning with the error code otherwise, and
    returns normally, so the row still gets built. *)
Theorem cost_field_on_client_error {L : StrLower} (w : World) (s3_client : S3)
    (cloudwatch_client : CloudWatch) (costexplorer_client : CostExplorer)
    (aws_profile : string) (bucket : Bucket) (code text : string) :
  get_cost_and_usage costexplorer_client (Name bucket)
    = Raise (ClientError code text) →
  get_bucket_cost w costexplorer_client (Name bucket)
  = ([Print (if String.eqb code "ValidationException"
             then "  - Info: Cost Explorer ValidationException. Enable 'Resource and tag-level data' in AWS Billing preferences."
             else "  - Warning: Could not get Cost Explorer data. Reason: "
                  +:+ code)],
     Return "N/A") ∧
  (∀ evs row,
     bucket_row w s3_client cloudwatch_client costexplorer_client
       aws_profile bucket = (evs, Return row) →
     Est_Cost row = "N/A").
Proof.
  intros Hc.
  assert (get_bucket_cost w costexplorer_client (Name bucket)
          = ([Print (if String.eqb code "ValidationException"
                     then "  - Info: Cost Explorer ValidationException. Enable 'Resource and tag-level data' in AWS Billing preferences."
                     else "  - Warning: Could not get Cost Explorer data. Reason: "
                          +:+ code)],
             Return "N/A")) as Hcost.
  { unfold get_bucket_cost. rewrite Hc. simpl.
    by destruct (String.eqb code "ValidationException"). }
  split; [done|]. intros evs row Hrow.
  apply bucket_row_Return_inv in Hrow
    as (_ & _ & e2 & cost & _ & _ & _ & _ & _ & _ & _ & _ & _
        & _ & H2 & _ & _ & _ & _ & _ & Hec & _).
  rewrite Hcost in H2. by simplify_eq.
Qed.

Lemma cost_field_on_client_error_witness :
  get_bucket_cost logs_world logs_costexplorer (Name logs_bucket)
  = ([Print "  - Info: Cost Explorer ValidationException. Enable 'Resource and tag-level data' in AWS Billing preferences."],
     Return "N/A") ∧
  (∀ evs row,
     bucket_row logs_world logs_s3 logs_cloudwatch logs_costexplorer
       "default" logs_bucket = (evs, Return row) →
     Est_Cost row = "N/A").
Proof.
  apply (cost_field_on_client_error logs_world logs_s3 logs_cloudwatch
           logs_costexplorer "default" logs_bucket
           "ValidationException" "An error occurred").
  reflexivity.
Defined.

(** A successful billing query gives "$" followed by the amount with two
    decimals. *)
Lemma cost_field_on_success (w : World) (costexplorer_client : CostExplorer)
    (bucket_name amount shown : string) (more : list string) :
  get_cost_and_usage costexplorer_client bucket_name
    = Return (amount :: more) →
  float_fixed2 w amount = Return shown →
  get_bucket_cost w costexplorer_client bucket_name
  = ([], Return ("$" +:+ shown)).
Proof.
  intros Hc Hf. unfold get_bucket_cost, call. rewrite Hc. simpl.
  by rewrite Hf.
Qed.

(** X13: A response without any result entry, from the metrics service or
    from the billing service, is not degraded to "N/A": the index raises
    an exception that the lookups do not handle, and the bucket gets no
    row. *)
Theorem empty_response_skips_bucket {L : StrLower} (w : World) (s3_client : S3)
    (cloudwatch_client : CloudWatch) (costexplorer_client : CostExplorer)
    (aws_profile : string) (bucket : Bucket) :
  get_metric_data cloudwatch_client (Name bucket) = Return [] ∨
  get_cost_and_usage costexplorer_client (Name bucket) = Return [] →
  collected_row w s3_client cloudwatch_client costexplorer_client
    aws_profile bucket = None ∧
  ∀ rest data,
    (collect w s3_client cloudwatch_client costexplorer_client aws_profile
       (bucket :: rest) data).2
    = (collect w s3_client cloudwatch_client costexplorer_client aws_profile
         rest data).2.
Proof.
  intros H.
  assert (∃ evs e,
            bucket_row w s3_client cloudwatch_client costexplorer_client
              aws_profile bucket = (evs, Raise e)) as (evs & e & Hraise).
  { destruct (bucket_row w s3_client cloudwatch_client costexplorer_client
                aws_profile bucket) as [evs [row|e]] eqn:Hrow; [|eauto].
    apply bucket_row_Return_inv in Hrow
      as (e1 & ts & e2 & cost & _ & _ & _ & _ & _ & _ & _ & _ & _
          & H1 & H2 & _).
    destruct H as [Hm|Hc].
    - rewrite (storage_lookup_index_error _ _ Hm) in H1. done.
    - unfold get_bucket_cost, call in H2. rewrite Hc in H2. done. }
  split.
  - unfold collected_row. by rewrite Hraise.
  - intros rest data.
    by rewrite (collect_cons_skip _ _ _ _ _ _ _ _ _ _ Hraise).
Qed.

Lemma empty_response_skips_bucket_witness :
  collected_row logs_world logs_s3 silent_cloudwatch logs_costexplorer
    "default" logs_bucket = None ∧
  ∀ rest data,
    (collect logs_world logs_s3 silent_cloudwatch logs_costexplorer "default"
       (logs_bucket :: rest) data).2
    = (collect logs_world logs_s3 silent_cloudwatch logs_costexplorer
         "default" rest data).2.
Proof.
  apply (empty_response_skips_bucket logs_world logs_s3 silent_cloudwatch
           logs_costexplorer "default" logs_bucket).
  left. reflexivity.
Defined.

(** The fields of a row that come from the bucket itself and from the
    location and versioning queries. *)
Lemma bucket_row_fields {L : StrLower} (w : World) (s3_client : S3)
    (cloudwatch_client : CloudWatch) (costexplorer_client : CostExplorer)
    (aws_profile : string) (bucket : Bucket)
    (evs : list event) (row : BucketRow) :
  bucket_row w s3_client cloudwatch_client costexplorer_client aws_profile
    bucket = (evs, Return row) →
  ∃ constraint status,
    get_bucket_location s3_client (Name bucket) = Return constraint ∧
    get_bucket_versioning s3_client (Name bucket) = Return status ∧
    Account_Profile row = aws_profile ∧
    Bucket_Name row = Name bucket ∧
    Creation_Date row = CreationDate bucket ∧
    Region row = normalized_region constraint ∧
    Versioning row = default "Not Enabled" status.
Proof.
  unfold bucket_row. intros H.
  apply bind_Return_inv in H as (? & [] & r1 & _ & H & _).
  apply bind_Return_inv in H as (e1 & total_storage & r2 & H1 & H & _).
  apply bind_Return_inv in H as (e2 & estimated_cost & r3 & H2 & H & _).
  apply bind_Return_inv in H as (? & constraint & r4 & H3 & H & _).
  apply bind_Return_inv in H as (? & status & r5 & H4 & H & _).
  apply bind_Return_inv in H as (e5 & deletion_policy & r6 & H5 & H & _).
  apply bind_Return_inv in H as (e6 & [[[fs ls] fo] dt] & r7 & H6 & H & _).
  injection H as _ <-.
  unfold call in H3, H4. injection H3 as _ H3. injection H4 as _ H4.
  by exists constraint, status.
Qed.

(** X14: The region of a row is never empty: a missing or empty location
    constraint is replaced by "us-east-1", any other constraint is kept;
    the versioning field is the status of the bucket, or "Not Enabled"
    when the response has none. *)
Theorem region_and_versioning_defaults {L : StrLower} (w : World)
    (s3_client : S3)
    (cloudwatch_client : CloudWatch) (costexplorer_client : CostExplorer)
    (aws_profile : string) (bucket : Bucket)
    (evs : list event) (row : BucketRow) :
  bucket_row w s3_client cloudwatch_client costexplorer_client aws_profile
    bucket = (evs, Return row) →
  Region row ≠ "" ∧
  (∀ l, get_bucket_location s3_client (Name bucket) = Return (Some l) →
        l ≠ "" → Region row = l) ∧
  (get_bucket_location s3_client (Name bucket) = Return None ∨
   get_bucket_location s3_client (Name bucket) = Return (Some "") →
   Region row = "us-east-1") ∧
  (∀ s, get_bucket_versioning s3_client (Name bucket) = Return (Some s) →
        Versioning row = s) ∧
  (get_bucket_versioning s3_client (Name bucket) = Return None →
   Versioning row = "Not Enabled").
Proof.
  intros Hrow.
  apply bucket_row_fields in Hrow
    as (constraint & status & Hl & Hv & _ & _ & _ & -> & ->).
  split; [|split; [|split; [|split]]].
  - destruct constraint as [l|]; simpl; [|done].
    destruct (String.eqb_spec l ""); done.
  - intros l Hl' Hne. rewrite Hl in Hl'. simplify_eq. simpl.
    by destruct (String.eqb_spec l "").
  - intros [Hl'|Hl']; rewrite Hl in Hl'; by simplify_eq.
  - intros s Hv'. rewrite Hv in Hv'. by simplify_eq.
  - intros Hv'. rewrite Hv in Hv'. by simplify_eq.
Qed.

Lemma region_and_versioning_defaults_witness :
  Region logs_row ≠ "" ∧
  (∀ l, get_bucket_location logs_s3 (Name logs_bucket) = Return (Some l) →
        l ≠ "" → Region logs_row = l) ∧
  (get_bucket_location logs_s3 (Name logs_bucket) = Return None ∨
   get_bucket_location logs_s3 (Name logs_bucket) = Return (Some "") →
   Region logs_row = "us-east-1") ∧
  (∀ s, get_bucket_versioning logs_s3 (Name logs_bucket) = Return (Some s) →
        Versioning logs_row = s) ∧
  (get_bucket_versioning logs_s3 (Name logs_bucket) = Return None →
   Versioning logs_row = "Not Enabled").
Proof.
  apply (region_and_versioning_defaults logs_world logs_s3 logs_cloudwatch
           logs_costexplorer "default" logs_bucket
           (bucket_row logs_world logs_s3 logs_cloudwatch logs_costexplorer
              "default" logs_bucket).1).
  vm_compute. reflexivity.
Defined.

(** X15: The deletion policy of a row is "Enabled" exactly when the lifecycle
    query returned, and "Not Enabled" exactly when it raised the "no
    lifecycle configuration" error; there is no third value. *)
Theorem deletion_policy_values {L : StrLower} (w : World) (s3_client : S3)
    (cloudwatch_client : CloudWatch) (costexplorer_client : CostExplorer)
    (aws_profile : string) (bucket : Bucket)
    (evs : list event) (row : BucketRow) :
  bucket_row w s3_client cloudwatch_client costexplorer_client aws_profile
    bucket = (evs, Return row) →
  (Deletion_Policy row = "Enabled" ↔
   get_bucket_lifecycle_configuration s3_client (Name bucket) = Return ()) ∧
  (Deletion_Policy row = "Not Enabled" ↔
   ∃ e, get_bucket_lifecycle_configuration s3_client (Name bucket) = Raise e ∧
        no_lifecycle e = true) ∧
  (Deletion_Policy row = "Enabled" ∨ Deletion_Policy row = "Not Enabled").
Proof.
  intros Hrow.
  apply bucket_row_Return_inv in Hrow
    as (_ & _ & _ & _ & _ & _ & e5 & dp & _ & _ & _ & _ & _
        & _ & _ & _ & _ & H5 & _ & _ & _ & -> & _).
  destruct (get_bucket_lifecycle_configuration s3_client (Name bucket))
    as [[]|e] eqn:Hl.
  - rewrite (get_deletion_policy_return _ _ Hl) in H5. simplify_eq.
    split; [done|]. split; [|by left].
    split; [done|]. by intros (e & ? & _).
  - rewrite (get_deletion_policy_raise _ _ _ Hl) in H5.
    destruct (no_lifecycle e) eqn:Hno; [|done]. simplify_eq.
    split; [done|]. split; [|by right].
    split; [by exists e|done].
Qed.

Lemma deletion_policy_values_witness :
  (Deletion_Policy logs_row = "Enabled" ↔
   get_bucket_lifecycle_configuration logs_s3 (Name logs_bucket) = Return ()) ∧
  (Deletion_Policy logs_row = "Not Enabled" ↔
   ∃ e, get_bucket_lifecycle_configuration logs_s3 (Name logs_bucket) = Raise e ∧
        no_lifecycle e = true) ∧
  (Deletion_Policy logs_row = "Enabled" ∨
   Deletion_Policy logs_row = "Not Enabled").
Proof.
  apply (deletion_policy_values logs_world logs_s3 logs_cloudwatch
           logs_costexplorer "default" logs_bucket
           (bucket_row logs_world logs_s3 logs_cloudwatch logs_costexplorer
              "default" logs_bucket).1).
  vm_compute. reflexivity.
Defined.


(** ** The table and the run *)

Lemma collect_omap {L : StrLower} (w : World) (s3_client : S3)
    (cloudwatch_client : CloudWatch) (costexplorer_client : CostExplorer)
    (aws_profile : string) (buckets : list Bucket) (data : list BucketRow) :
  (collect w s3_client cloudwatch_client costexplorer_client aws_profile
     buckets data).2
  = Return (data ++ omap (collected_row w s3_client cloudwatch_client
                            costexplorer_client aws_profile) buckets)%list.
Proof.
  revert data. induction buckets as [|bucket rest IH]; intros data.
  - simpl. by rewrite app_nil_r.
  - simpl omap. unfold collected_row at 1.
    destruct (bucket_row w s3_client cloudwatch_client costexplorer_client
                aws_profile bucket) as [evs [row|e]] eqn:Hrow.
    + rewrite (collect_cons_row _ _ _ _ _ _ _ _ _ _ Hrow). simpl.
      rewrite IH. by rewrite <- app_assoc.
    + rewrite (collect_cons_skip _ _ _ _ _ _ _ _ _ _ Hrow). simpl.
      apply IH.
Qed.

Lemma collected_row_name {L : StrLower} (w : World) (s3_client : S3)
    (cloudwatch_client : CloudWatch) (costexplorer_client : CostExplorer)
    (aws_profile : string) (bucket : Bucket) (row : BucketRow) :
  collected_row w s3_client cloudwatch_client costexplorer_client aws_profile
    bucket = Some row →
  Bucket_Name row = Name bucket ∧ Account_Profile row = aws_profile.
Proof.
  unfold collected_row.
  destruct (bucket_row w s3_client cloudwatch_client costexplorer_client
              aws_profile bucket) as [evs [r|e]] eqn:Hrow; [|done].
  intros [= ->].
  by apply bucket_row_fields in Hrow as (_ & _ & _ & _ & ? & ? & _).
Qed.

(** X16: The loop returns the rows it was given followed by one row for each
    bucket whose body returned, in the order of the buckets, and nothing
    for the others: the names of the rows are a sub-sequence of the names
    of the buckets, distinct when those are, and every row carries the
    profile of the run. *)
Theorem table_follows_buckets {L : StrLower} (w : World) (s3_client : S3)
    (cloudwatch_client : CloudWatch) (costexplorer_client : CostExplorer)
    (aws_profile : string) (buckets : list Bucket) (data : list BucketRow) :
  let rows := omap (collected_row w s3_client cloudwatch_client
                      costexplorer_client aws_profile) buckets in
  (collect w s3_client cloudwatch_client costexplorer_client aws_profile
     buckets data).2 = Return (data ++ rows)%list ∧
  Bucket_Name <$> rows `sublist_of` Name <$> buckets ∧
  (NoDup (Name <$> buckets) → NoDup (Bucket_Name <$> rows)) ∧
  Forall (λ row, Account_Profile row = aws_profile) rows.
Proof.
  intros rows.
  assert (Bucket_Name <$> rows `sublist_of` Name <$> buckets) as Hsub.
  { unfold rows. induction buckets as [|bucket rest IH]; [done|].
    simpl omap.
    destruct (collected_row w s3_client cloudwatch_client costexplorer_client
                aws_profile bucket) as [row|] eqn:Hrow; simpl.
    - apply collected_row_name in Hrow as [-> _]. by apply sublist_skip.
    - by apply sublist_cons. }
  split; [apply collect_omap|]. split; [done|]. split.
  - intros Hnd. by eapply sublist_NoDup.
  - unfold rows. apply Forall_forall. intros row Hin.
    apply list_elem_of_omap in Hin as (bucket & _ & Hrow).
    by apply collected_row_name in Hrow as [_ ?].
Qed.

Lemma filter_reports_quiet (evs : list event) :
  Forall (λ ev, writes_report ev = false) evs →
  filter (λ ev, writes_report ev = true) evs = [].
Proof.
  induction 1 as [|ev evs Hev _ IH]; [done|].
  rewrite filter_cons, decide_False by congruence. done.
Qed.

Lemma filter_reports_prints (lines : list string) :
  filter (λ ev, writes_report ev = true) (Print <$> lines) = [].
Proof.
  apply filter_reports_quiet, Forall_fmap, Forall_forall. done.
Qed.

Lemma excel_report_run (w : World) (df : list BucketRow)
    (aws_profile : string) :
  ∃ evs,
    generate_excel_report w df aws_profile = (evs, Return ()) ∧
    filter (λ ev, writes_report ev = true) evs
    = [SaveWorkbook (excel_workbook w df aws_profile)].
Proof.
  rewrite generate_excel_report_events. eexists. split; [reflexivity|].
  rewrite filter_app, filter_cons, decide_False by done.
  rewrite filter_reports_prints. simpl.
  rewrite filter_cons, decide_True by done.
  rewrite filter_cons, decide_False by done. done.
Qed.

Lemma pdf_report_run (w : World) (df : list BucketRow)
    (aws_profile : string) :
  ∃ evs,
    generate_pdf_report w df aws_profile = (evs, Return ()) ∧
    filter (λ ev, writes_report ev = true) evs
    = [BuildDocument (pdf_document w df aws_profile)].
Proof.
  rewrite generate_pdf_report_events. eexists. split; [reflexivity|].
  rewrite filter_app, filter_cons, decide_False by done.
  rewrite filter_reports_prints. simpl.
  rewrite filter_cons, decide_True by done.
  rewrite filter_cons, decide_False by done. done.
Qed.

(** With renderers that do not fail, the report events of a run are
    none for an empty table, and otherwise one workbook followed by one
    document, both made from the whole table. *)
Lemma run_report_events {L : StrLower} (w : World) :
  ∃ evs,
    get_s3_insights w = (evs, Return ()) ∧
    filter (λ ev, writes_report ev = true) evs
    = match collected w with
      | [] => []
      | _ :: _ =>
          [SaveWorkbook (excel_workbook w (collected w)
                           (default "default" (AWS_PROFILE w)));
           BuildDocument (pdf_document w (collected w)
                            (default "default" (AWS_PROFILE w)))]
      end.
Proof.
  unfold get_s3_insights, collected.
  destruct (session w) as [[[[s3 cw] ce] buckets]|e].
  - pose proof (collect_omap w s3 cw ce (default "default" (AWS_PROFILE w))
                  buckets []) as Hrows.
    pose proof (quiet_collect w s3 cw ce (default "default" (AWS_PROFILE w))
                  buckets []) as Hq.
    destruct (collect w s3 cw ce (default "default" (AWS_PROFILE w))
                buckets []) as [evs r].
    simpl in Hrows. subst r. unfold quiet in Hq. simpl in Hq.
    set (df := omap _ buckets) in *.
    unfold print. rewrite !bind_Return. simpl.
    destruct df as [|row df'] eqn:Hdf.
    + eexists. split; [reflexivity|]. simpl.
      rewrite filter_cons, decide_False by done.
      rewrite filter_app, (filter_reports_quiet evs Hq). done.
    + destruct (excel_report_run w (row :: df')
                  (default "default" (AWS_PROFILE w))) as (ex & -> & Hex).
      destruct (pdf_report_run w (row :: df')
                  (default "default" (AWS_PROFILE w))) as (px & -> & Hpx).
      rewrite !bind_Return. simpl.
      eexists. split; [reflexivity|].
      rewrite filter_cons, decide_False by done.
      rewrite !filter_app, (filter_reports_quiet evs Hq), Hex, Hpx. done.
  - eexists. split; [reflexivity|]. done.
Qed.

(** X17: what a run writes is made from the whole table.  A workbook
    saved by the run is the workbook of all the rows collected, under the
    profile of the run, and there is at least one row; so is a document
    built by the run, and it is built only after the workbook has been
    saved.  Nothing is said of a run whose renderer fails: it has no such
    event. *)
Theorem run_reports_from_whole_table {L : StrLower} (w : World) :
  let df := collected w in
  let aws_profile := default "default" (AWS_PROFILE w) in
  (∀ wb,
     SaveWorkbook wb ∈ (get_s3_insights w).1 →
     df ≠ [] ∧ wb = excel_workbook w df aws_profile) ∧
  (∀ doc pre post,
     (get_s3_insights w).1 = (pre ++ BuildDocument doc :: post)%list →
     df ≠ [] ∧ doc = pdf_document w df aws_profile ∧
     SaveWorkbook (excel_workbook w df aws_profile) ∈ pre).
Proof.
  cbv zeta. destruct (run_report_events w) as (evs & Heq & Hf).
  rewrite Heq. simpl. split.
  - intros wb Hin.
    assert (SaveWorkbook wb ∈ filter (λ ev, writes_report ev = true) evs)
      as Hw by (by apply list_elem_of_filter).
    rewrite Hf in Hw.
    destruct (collected w) as [|row rows]; [by apply elem_of_nil in Hw|].
    split; [done|].
    apply elem_of_cons in Hw as [[= ->]|Hw]; [done|].
    by apply list_elem_of_singleton in Hw.
  - intros doc pre post ->.
    rewrite filter_app, filter_cons, decide_True in Hf by done.
    destruct (filter (λ ev, writes_report ev = true) pre)
      as [|a [|b r]] eqn:Hpre;
      destruct (collected w) as [|row rows]; try done.
    + simpl in Hf. simplify_eq. split; [done|]. split; [done|].
      assert (SaveWorkbook
                (excel_workbook w (row :: rows)
                   (default "default" (AWS_PROFILE w)))
              ∈ filter (λ ev, writes_report ev = true) pre) as Hin
        by (rewrite Hpre; left).
      by apply list_elem_of_filter in Hin as [_ ?].
    + simpl in Hf. simplify_eq. by destruct r.
Qed.

(** In the first scenario both reports are written, in this order. *)
Example logs_world_report_order :
  filter (λ ev, writes_report ev = true) (get_s3_insights logs_world).1
  = [SaveWorkbook (excel_workbook logs_world [logs_row] "default");
     BuildDocument (pdf_document logs_world [logs_row] "default")].
Proof. by vm_compute. Qed.


(** ** The order of regions *)

Lemma ascii_compare_lt_trans (a b c : ascii) :
  Ascii.compare a b = Lt → Ascii.compare b c = Lt → Ascii.compare a c = Lt.
Proof. unfold Ascii.compare. rewrite !N.compare_lt_iff. lia. Qed.

Lemma string_compare_refl (a : string) : String.compare a a = Eq.
Proof.
  induction a as [|x a IH]; simpl; [done|].
  unfold Ascii.compare. by rewrite N.compare_refl.
Qed.

Lemma string_compare_lt_trans (a b c : string) :
  String.compare a b = Lt → String.compare b c = Lt → String.compare a c = Lt.
Proof.
  revert b c. induction a as [|x a IH]; intros [|y b] [|z c]; simpl; try done.
  destruct (Ascii.compare x y) eqn:Hxy; try done;
    destruct (Ascii.compare y z) eqn:Hyz; try done.
  - apply Ascii.compare_eq_iff in Hxy as ->. rewrite Hyz. apply IH.
  - apply Ascii.compare_eq_iff in Hxy as ->. by rewrite Hyz.
  - apply Ascii.compare_eq_iff in Hyz as <-. by rewrite Hxy.
  - by rewrite (ascii_compare_lt_trans x y z Hxy Hyz).
Qed.

#[global] Instance str_le_total : Total str_le.
Proof. intros a b. apply String.leb_total. Qed.

#[global] Instance str_le_antisymm : AntiSymm (=) str_le.
Proof. intros a b. apply String.leb_antisym. Qed.

#[global] Instance str_le_transitive : Transitive str_le.
Proof.
  intros a b c. unfold str_le, String.leb.
  destruct (String.compare a b) eqn:Hab; try done;
    destruct (String.compare b c) eqn:Hbc; try done; intros _ _.
  - apply String.compare_eq_iff in Hab as ->. by rewrite Hbc.
  - apply String.compare_eq_iff in Hab as ->. by rewrite Hbc.
  - apply String.compare_eq_iff in Hbc as <-. by rewrite Hab.
  - by rewrite (string_compare_lt_trans a b c Hab Hbc).
Qed.

#[global] Instance key_le_total : Total key_le.
Proof. intros x y. apply str_le_total. Qed.

#[global] Instance key_le_transitive : Transitive key_le.
Proof. intros x y z. apply str_le_transitive. Qed.

(** ** The region sheets and the summary *)

Lemma list_map_fmap {A B : Type} (f : A → B) (l : list A) : map f l = f <$> l.
Proof. by induction l as [|x l IH]; simpl; [|rewrite IH]. Qed.

Lemma unique_from_elem (l : list string) (seen : gset string) (x : string) :
  x ∈ unique_from seen l ↔ x ∈ l ∧ x ∉ seen.
Proof.
  revert seen. induction l as [|y l IH]; intros seen; simpl.
  - split; [by intros ?%elem_of_nil|by intros [?%elem_of_nil _]].
  - destruct (decide (y ∈ seen)) as [Hy|Hy].
    + rewrite IH, elem_of_cons. split; [intros [? ?]; auto|].
      intros [[->|?] ?]; [done|auto].
    + rewrite !elem_of_cons, IH. split.
      * intros [->|[? ?]]; [auto|]. split; [auto|set_solver].
      * intros [[->|?] ?]; [auto|].
        destruct (decide (x = y)) as [->|]; [auto|]. right. set_solver.
Qed.

Lemma unique_from_NoDup (l : list string) (seen : gset string) :
  NoDup (unique_from seen l).
Proof.
  revert seen. induction l as [|y l IH]; intros seen; simpl; [constructor|].
  destruct (decide (y ∈ seen)); [apply IH|].
  constructor; [|apply IH]. rewrite unique_from_elem. set_solver.
Qed.

(** The sorted regions: each region of the table once, in order. *)
Lemma sorted_regions_spec (df : list BucketRow) :
  StronglySorted str_le (sorted_regions df) ∧ NoDup (sorted_regions df) ∧
  ∀ region, region ∈ sorted_regions df ↔ region ∈ Region <$> df.
Proof.
  unfold sorted_regions, unique. split; [|split].
  - apply StronglySorted_merge_sort; apply _.
  - rewrite merge_sort_Permutation. apply unique_from_NoDup.
  - intros region. rewrite merge_sort_Permutation, unique_from_elem.
    rewrite list_map_fmap. set_solver.
Qed.

(** Sheets made for distinct regions that cover the table hold every row
    once. *)
Lemma region_rows_partition (regions : list string) (df : list BucketRow) :
  NoDup regions →
  (∀ row, row ∈ df → Region row ∈ regions) →
  concat (region_rows df <$> regions) ≡ₚ df.
Proof.
  revert df. induction regions as [|r rs IH]; intros df Hnd Hcover.
  - destruct df as [|row df]; [done|].
    by specialize (Hcover row ltac:(by left)) as ?%elem_of_nil.
  - apply NoDup_cons in Hnd as [Hr Hnd].
    change (concat (region_rows df <$> r :: rs))
      with (region_rows df r ++ concat (region_rows df <$> rs))%list.
    set (df' := filter (λ row, ¬ Region row = r) df).
    assert (region_rows df <$> rs = region_rows df' <$> rs) as ->.
    { apply list_fmap_ext. intros _ r' Hr'%list_elem_of_lookup_2.
      unfold region_rows, df'. rewrite list_filter_filter.
      apply list_filter_iff. intros row. split; [|by intros [? _]].
      intros <-. split; [done|]. intros Heq. by rewrite Heq in Hr'. }
    rewrite IH; [apply filter_app_complement|done|].
    intros row [Hne Hin]%list_elem_of_filter.
    by specialize (Hcover row Hin) as [?|?]%elem_of_cons.
Qed.

Lemma sheets_names (df : list BucketRow) (regions : list string) :
  (map (λ region, (region, region_rows df region)) regions).*1 = regions.
Proof.
  induction regions as [|r rs IH]; [done|]. simpl. f_equal. exact IH.
Qed.

Lemma sheets_rows (df : list BucketRow) (regions : list string) :
  (map (λ region, (region, region_rows df region)) regions).*2
  = region_rows df <$> regions.
Proof.
  induction regions as [|r rs IH]; [done|]. simpl. f_equal. exact IH.
Qed.

(** X18: The workbook has one sheet per region of the table, in ascending
    order of the region and without repetition; no sheet is empty, each
    holds the rows of its region in table order, and together the sheets
    hold every row of the table exactly once. *)
Theorem workbook_sheets_partition (w : World) (df : list BucketRow)
    (aws_profile : string) (wb : Workbook) :
  SaveWorkbook wb ∈ (generate_excel_report w df aws_profile).1 →
  StronglySorted str_le (xlsx_sheets wb).*1 ∧
  NoDup (xlsx_sheets wb).*1 ∧
  (∀ region, region ∈ (xlsx_sheets wb).*1 ↔ region ∈ Region <$> df) ∧
  (∀ region rows,
     (region, rows) ∈ xlsx_sheets wb →
     rows ≠ [] ∧ rows = filter (λ row, Region row = region) df) ∧
  concat (xlsx_sheets wb).*2 ≡ₚ df.
Proof.
  intros ->%saved_workbook. simpl.
  destruct (sorted_regions_spec df) as (Hsorted & Hnd & Helem).
  rewrite sheets_names, sheets_rows.
  split; [done|]. split; [done|]. split; [done|]. split.
  - intros region rows Hin.
    rewrite list_map_fmap in Hin.
    apply list_elem_of_fmap in Hin as (r & [= -> ->] & Hr).
    split; [|done].
    apply Helem, list_elem_of_fmap in Hr as (row & -> & Hrow).
    intros Hnil.
    assert (row ∈ region_rows df (Region row)) as Hin
      by (by apply list_elem_of_filter).
    rewrite Hnil in Hin. by apply elem_of_nil in Hin.
  - apply region_rows_partition; [done|].
    intros row Hrow. apply Helem. by apply list_elem_of_fmap_2.
Qed.

Lemma workbook_sheets_partition_witness :
  StronglySorted str_le
    (xlsx_sheets (excel_workbook logs_world sample_table "default")).*1 ∧
  NoDup (xlsx_sheets (excel_workbook logs_world sample_table "default")).*1 ∧
  (∀ region,
     region ∈ (xlsx_sheets (excel_workbook logs_world sample_table
                              "default")).*1 ↔
     region ∈ Region <$> sample_table) ∧
  (∀ region rows,
     (region, rows)
       ∈ xlsx_sheets (excel_workbook logs_world sample_table "default") →
     rows ≠ [] ∧ rows = filter (λ row, Region row = region) sample_table) ∧
  concat (xlsx_sheets (excel_workbook logs_world sample_table "default")).*2
    ≡ₚ sample_table.
Proof.
  apply (workbook_sheets_partition logs_world sample_table "default").
  vm_compute. do 3 right. left.
Defined.

Example sample_table_sheets :
  xlsx_sheets (excel_workbook logs_world sample_table "default")
  = [("eu-west-1", [row_in "backups" "eu-west-1"]);
     ("us-east-1", [row_in "photos" "us-east-1"; row_in "logs" "us-east-1"])].
Proof. by vm_compute. Qed.


(** ** The summary and the detail tables *)

Lemma sum_list_snd_foldr (l : list (string * nat)) :
  sum_list l.*2
  = foldr (uncurry (λ (_ : string) (count total : nat), (count + total)%nat))
      0%nat l.
Proof.
  induction l as [|[k n] l IH]; [done|].
  change (n + sum_list l.*2
          = n + foldr (uncurry (λ (_ : string) (count total : nat),
                                  (count + total)%nat)) 0%nat l)%nat.
  by rewrite IH.
Qed.

Lemma histogram_total_tally (df : list BucketRow) (m : gmap string nat) :
  histogram_total (foldl tally_row m df) = (histogram_total m + length df)%nat.
Proof.
  revert m. induction df as [|row df IH]; intros m; simpl; [lia|].
  rewrite IH. unfold tally_row. rewrite histogram_total_bump. lia.
Qed.

Lemma pairs_of_keys {A B : Type} (g : A → B) (l : list (A * B)) :
  (∀ k v, (k, v) ∈ l → v = g k) → l = (λ k, (k, g k)) <$> l.*1.
Proof.
  induction l as [|[k v] l IH]; intros Hl; [done|]. simpl. f_equal.
  - f_equal. apply Hl. left.
  - apply IH. intros k' v' Hin. apply Hl. by right.
Qed.

(** A group of the tally is a region of the table, with its number of
    rows. *)
Lemma groupby_region_count_Some (df : list BucketRow) (region : string)
    (count : nat) :
  groupby_region_count df !! region = Some count →
  region ∈ Region <$> df ∧
  count = length (filter (λ row, Region row = region) df) ∧ (0 < count)%nat.
Proof.
  unfold groupby_region_count. rewrite tally_lookup, lookup_empty.
  destruct (filter (λ row, Region row = region) df) as [|row rows] eqn:Hf;
    simpl; [done|].
  intros [= <-]. split; [|lia].
  assert (row ∈ filter (λ row, Region row = region) df) as Hin
    by (rewrite Hf; left).
  apply list_elem_of_filter in Hin as [<- Hin].
  by apply list_elem_of_fmap_2.
Qed.

(** The summary rows are the sorted regions, each with its number of
    rows; the counts add up to the length of the table. *)
Lemma summary_rows_spec (df : list BucketRow) :
  summary_rows df
  = (λ region, (region, length (region_rows df region)))
      <$> sorted_regions df ∧
  sum_list (summary_rows df).*2 = length df.
Proof.
  destruct (sorted_regions_spec df) as (Hsorted & Hnd & Helem).
  assert ((summary_rows df).*1 = sorted_regions df) as Hkeys.
  { apply (StronglySorted_unique str_le); [|done|].
    - unfold summary_rows. apply (StronglySorted_fmap fst key_le str_le); [done|].
      apply StronglySorted_merge_sort; apply _.
    - unfold summary_rows. rewrite merge_sort_Permutation.
      apply NoDup_Permutation; [apply NoDup_fst_map_to_list|done|].
      intros region. rewrite Helem. split.
      + intros ([k n] & -> & Hin%elem_of_map_to_list)%list_elem_of_fmap.
        simpl. by apply groupby_region_count_Some in Hin as [? _].
      + intros Hin.
        destruct (groupby_region_count_lookup df region Hin) as [Hl _].
        apply list_elem_of_fmap.
        exists (region, length (filter (λ row, Region row = region) df)).
        split; [done|]. by apply elem_of_map_to_list. }
  split.
  - rewrite <- Hkeys. apply pairs_of_keys. intros region count Hin.
    unfold summary_rows in Hin. rewrite merge_sort_Permutation in Hin.
    apply elem_of_map_to_list in Hin.
    by apply groupby_region_count_Some in Hin as (_ & ? & _).
  - unfold summary_rows.
    rewrite (sum_list_with_Permutation_proper _ _ _
               (fmap_Permutation snd _ _ (merge_sort_Permutation _ _))).
    rewrite sum_list_snd_foldr, <- map_fold_foldr.
    change (histogram_total (groupby_region_count df) = length df).
    unfold groupby_region_count. rewrite histogram_total_tally.
    unfold histogram_total. by rewrite map_fold_empty.
Qed.

Lemma sheets_counts (df : list BucketRow) (regions : list string) :
  (λ sheet : string * list BucketRow, (sheet.1, length sheet.2))
    <$> map (λ region, (region, region_rows df region)) regions
  = (λ region, (region, length (region_rows df region))) <$> regions.
Proof.
  induction regions as [|r rs IH]; [done|]. simpl. f_equal. exact IH.
Qed.

(** X19: The summary sheet of the workbook lists the region sheets in their
    order, each with the number of rows of its sheet, and its counts add
    up to the number of rows of the table. *)
Theorem summary_sheet_lists_region_sheets (w : World) (df : list BucketRow)
    (aws_profile : string) (wb : Workbook) :
  SaveWorkbook wb ∈ (generate_excel_report w df aws_profile).1 →
  xlsx_summary wb
  = (λ sheet, (sheet.1, length sheet.2)) <$> xlsx_sheets wb ∧
  sum_list (xlsx_summary wb).*2 = length df.
Proof.
  intros ->%saved_workbook. simpl.
  destruct (summary_rows_spec df) as [Hrows Hsum]. split; [|done].
  by rewrite sheets_counts.
Qed.

Lemma summary_sheet_lists_region_sheets_witness :
  xlsx_summary (excel_workbook logs_world sample_table "default")
  = (λ sheet, (sheet.1, length sheet.2))
      <$> xlsx_sheets (excel_workbook logs_world sample_table "default") ∧
  sum_list (xlsx_summary (excel_workbook logs_world sample_table
                            "default")).*2
  = length sample_table.
Proof.
  apply (summary_sheet_lists_region_sheets logs_world sample_table "default").
  vm_compute. do 3 right. left.
Defined.


